(** * ca_secretary_of_state/transform.py: a shallow embedding

    The transformation step of the California Secretary of State results
    pipeline: raw per-category JSON documents are flattened into contests,
    corrected from a hand-kept table, given vote shares and written out.

    Modelling conventions.
    - A Python [str] is a Rocq [string]; its characters are read as code
      points below 256.
    - A Python exception is a value of [exn]; code that can raise returns
      [result].
    - A raw JSON object with a fixed set of keys is a record whose fields
      are options: [None] is an absent key where the code indexes it
      ([d["k"]], a [KeyError]), and an absent key or a JSON null where the
      code reads it with [d.get("k", None)].
    - A Python [float] is the rational number the double denotes; the two
      float operations of the file (true division of two integers and
      [round(x, 4)]) round to the nearest double, ties to even. The sign of
      a zero is not kept.
    - [int] accepts what CPython's [int(str)] accepts on such strings; the
      interpreter's optional cap on the length of a literal
      (sys.set_int_max_str_digits) is not modelled.
    - The candidate dictionaries the code updates in place come fresh from
      [json.load] and are read once, so an update is a new record value.
    - [raw_dir.glob] yields the objects of the raw directory in no promised
      order: a run is given one listing of them, and two runs over the same
      directory may be given listings that differ in order. *)

From Stdlib Require Import ZArith QArith Qabs Lia Lqa.
From Stdlib Require Import String Ascii List Bool.
From stdpp Require Import base gmap strings list.
Close Scope Q_scope.
Open Scope string_scope.
Open Scope Z_scope.
Import ListNotations.

(** ** Exceptions *)

Inductive exn : Type :=
| KeyError (key : string)   (* a raw document lacks an expected key *)
| ValueError                (* int() on a string that is no integer literal *)
| AttributeError            (* a method called on None *)
| OverflowError             (* int / int too large for a float *)
| ZeroDivisionError         (* int / 0 *)
| ValidationError.          (* the schema rejects a transformed record *)

Inductive result (A : Type) : Type :=
| Ok (a : A)
| Raise (e : exn).
Arguments Ok {A} a.
Arguments Raise {A} e.

#[global] Instance result_ret : MRet result := fun _ a => Ok a.
#[global] Instance result_bind : MBind result := fun _ _ k r =>
  match r with
  | Ok a => k a
  | Raise e => Raise e
  end.

(** [d[key]] on a record field. *)
Definition getitem {A} (key : string) (field : option A) : result A :=
  match field with
  | Some v => Ok v
  | None => Raise (KeyError key)
  end.

(** A list comprehension or [for] loop whose body can raise: the elements
    are handled in order and the first exception ends the loop. *)
Fixpoint for_each {A B} (f : A -> result B) (l : list A) : result (list B) :=
  match l with
  | [] => Ok []
  | x :: rest =>
      y ← f x;
      ys ← for_each f rest;
      Ok (y :: ys)
  end.

(** ** Strings *)

Module Str.

Definition code (c : ascii) : Z := Z.of_N (N_of_ascii c).

(** Characters [str.strip()] removes: Unicode white space below 256. *)
Definition isspace (c : ascii) : bool :=
  let n := code c in
  ((9 <=? n) && (n <=? 13)) || ((28 <=? n) && (n <=? 32))
  || (n =? 133) || (n =? 160).

(** Characters [int()] skips around a literal: the C white space, and the
    two white-space code points above 127, which it first turns into a
    blank. *)
Definition int_isspace (c : ascii) : bool :=
  let n := code c in
  ((9 <=? n) && (n <=? 13)) || (n =? 32) || (n =? 133) || (n =? 160).

Fixpoint lstrip_with (sp : ascii -> bool) (s : string) : string :=
  match s with
  | EmptyString => EmptyString
  | String c rest => if sp c then lstrip_with sp rest else s
  end.

Fixpoint rstrip_with (sp : ascii -> bool) (s : string) : string :=
  match s with
  | EmptyString => EmptyString
  | String c rest =>
      match rstrip_with sp rest with
      | EmptyString => if sp c then EmptyString else String c EmptyString
      | kept => String c kept
      end
  end.

(** [s.strip()] *)
Definition strip (s : string) : string :=
  rstrip_with isspace (lstrip_with isspace s).

(** [s.replace(old, empty)] for a one-character [old]. *)
Fixpoint remove_char (old : ascii) (s : string) : string :=
  match s with
  | EmptyString => EmptyString
  | String c rest =>
      if Ascii.eqb c old then remove_char old rest
      else String c (remove_char old rest)
  end.

(** [s.lower()] *)
Definition lower_char (c : ascii) : ascii :=
  let n := code c in
  if ((65 <=? n) && (n <=? 90))
     || ((192 <=? n) && (n <=? 222) && negb (n =? 215))
  then ascii_of_N (Z.to_N (n + 32)) else c.

Fixpoint lower (s : string) : string :=
  match s with
  | EmptyString => EmptyString
  | String c rest => String (lower_char c) (lower rest)
  end.

(** [needle in hay] *)
Fixpoint contains (needle hay : string) : bool :=
  String.prefix needle hay
  || match hay with
     | EmptyString => false
     | String _ rest => contains needle rest
     end.

(** The truth value of a string: non-empty. *)
Definition truthy (s : string) : bool :=
  match s with
  | EmptyString => false
  | String _ _ => true
  end.

Definition digit_value (c : ascii) : option Z :=
  let n := code c in
  if (48 <=? n) && (n <=? 57) then Some (n - 48) else None.

(** The digits of an integer literal, most significant first; one
    underscore may stand between two digits. [after_digit] tells whether
    the last character read was a digit. *)
Fixpoint int_digits (acc : Z) (after_digit : bool) (s : string) : option Z :=
  match s with
  | EmptyString => if after_digit then Some acc else None
  | String c rest =>
      match digit_value c with
      | Some d => int_digits (10 * acc + d) true rest
      | None =>
          if Ascii.eqb c "_"%char && after_digit
          then int_digits acc false rest
          else None
      end
  end.

(** [int(s)] in base ten. *)
Definition int (s : string) : result Z :=
  let body := rstrip_with int_isspace (lstrip_with int_isspace s) in
  let parsed :=
    match body with
    | String "-" digits => option_map Z.opp (int_digits 0 false digits)
    | String "+" digits => int_digits 0 false digits
    | _ => int_digits 0 false body
    end in
  match parsed with
  | Some n => Ok n
  | None => Raise ValueError
  end.

End Str.

(** ** Floats *)

Module Float.

(** The value of a double. *)
Definition float : Type := Q.

(** [n / d] rounded to the nearest integer, ties to the even one
    ([0 < d]). *)
Definition rne (n d : Z) : Z :=
  let q := n / d in
  let r := n mod d in
  if 2 * r <? d then q
  else if d <? 2 * r then q + 1
  else if Z.even q then q else q + 1.

(** The exponent of the last place of the double nearest to [n / d]
    ([0 < n], [0 < d]): 52 below the exponent of [n / d], and never below
    that of the subnormal numbers. *)
Definition ulp_exponent (n d : Z) : Z :=
  let l := Z.log2 n - Z.log2 d in
  let reaches := if 0 <=? l then d * 2 ^ l <=? n else d <=? n * 2 ^ (- l) in
  let e := if reaches then l else l - 1 in
  Z.max (e - 52) (-1074).

(** [m * 2^p] as a rational in lowest terms. *)
Definition scale (m p : Z) : Q :=
  if 0 <=? p then inject_Z (m * 2 ^ p)
  else Qred (Qmake m (Z.to_pos (2 ^ (- p)))).

(** The double nearest to [n / d], ties to even ([0 < n], [0 < d]);
    [None] when it is beyond the largest double. *)
Definition nearest_pos (n d : Z) : option Q :=
  let p := ulp_exponent n d in
  let m := if 0 <=? p then rne n (d * 2 ^ p) else rne (n * 2 ^ (- p)) d in
  if (0 <=? p) && (2 ^ 1024 <=? m * 2 ^ p) then None
  else Some (scale m p).

Definition nearest (n d : Z) : option Q :=
  if n =? 0 then Some 0%Q
  else if 0 <? n then nearest_pos n d
  else option_map Qopp (nearest_pos (- n) d).

(** [a / b] on two Python integers: the exact quotient, rounded once. *)
Definition true_div (a b : Z) : result float :=
  if b =? 0 then Raise ZeroDivisionError
  else
    let r := if 0 <? b then nearest a b else nearest (- a) (- b) in
    match r with
    | Some x => Ok x
    | None => Raise OverflowError
    end.

(** [round(x, 4)]: the nearest multiple of 1/10000 to the exact value of
    [x], ties to the even multiple, then the double nearest to it. *)
Definition ten_thousandths (x : float) : Z :=
  rne (Qnum x * 10000) (Zpos (Qden x)).

Definition round4 (x : float) : float :=
  match nearest (ten_thousandths x) 10000 with
  | Some y => y
  | None => x
  end.

Definition zero : float := 0%Q.

(** The exact sum of the values of a list of floats. *)
Definition total (l : list float) : Q := fold_right Qplus 0%Q l.

End Float.

Example true_div_third :
  Float.true_div 1 3 = Ok (6004799503160661 # 18014398509481984)%Q.
Proof. vm_compute. reflexivity. Qed.
Example round4_third :
  (y ← Float.true_div 100 150; Ok (Float.ten_thousandths y)) = Ok 6667.
Proof. vm_compute. reflexivity. Qed.
Example round4_one : (y ← Float.true_div 10 10; Ok (Float.round4 y)) = Ok 1%Q.
Proof. vm_compute. reflexivity. Qed.

(** ** Raw records (the scraper's JSON) *)

Module RawCandidate.
Record t : Type := mk {
  Name : option string;
  Party : option string;
  Votes : option string;
  incumbent : option bool;
  votes_percent : option Float.float
}.
(** [c["incumbent"] = b] and [c["votes_percent"] = x] *)
Definition set_incumbent (b : bool) (c : t) : t :=
  mk (Name c) (Party c) (Votes c) (Some b) (votes_percent c).
Definition set_votes_percent (x : Float.float) (c : t) : t :=
  mk (Name c) (Party c) (Votes c) (incumbent c) (Some x).
End RawCandidate.

Module RawContest.
Record t : Type := mk {
  raceTitle : option string;
  Reporting : option string;
  candidates : option (list RawCandidate.t)
}.
End RawContest.

(** An entry of the "supreme-court" list. *)
Module Retention.
Record t : Type := mk {
  Name : option string;
  yesVotes : option string;
  noVotes : option string
}.
End Retention.

(** An entry of the "ballot-measures" list. *)
Module Measure.
Record t : Type := mk {
  Number : option string;
  Name : option string;
  yesVotes : option string;
  noVotes : option string
}.
End Measure.

(** One raw file: the keys the driver looks at. A document that is itself
    a contest carries [raceTitle], [Reporting] and [candidates]. *)
Module RawDocument.
Record t : Type := mk {
  races : option (list RawContest.t);
  supreme_court : option (list Retention.t);
  ballot_measures : option (list Measure.t);
  raceTitle : option string;
  Reporting : option string;
  candidates : option (list RawCandidate.t)
}.
Definition as_contest (d : t) : RawContest.t :=
  RawContest.mk (raceTitle d) (Reporting d) (candidates d).
End RawDocument.

(** A path object that [raw_dir.glob] yields, by what the driver observes
    of it: [str(o)], [o.is_file()], [o.parent.stem] and, for a file, the
    JSON document [json.load] reads from it. *)
Module RawFile.
Record t : Type := mk {
  str : string;
  is_file : bool;
  parent_stem : string;
  content : RawDocument.t
}.
End RawFile.

(** A row of corrections.csv, as [csv.DictReader] gives it: a column the
    row is too short for is [None]. *)
Module Correction.
Record t : Type := mk {
  raw_name : string;
  include : option string;
  clean_name : option string;
  clean_description : option string;
  clean_geography : option string;
  incumbent : option string
}.
End Correction.

(** ** Transformed records (schema.CandidateResult, schema.Contest) *)

Module CandidateResult.
Record t : Type := mk {
  name : string;
  party : option string;
  votes : Z;
  votes_percent : Float.float;
  incumbent : option bool
}.
End CandidateResult.

Module Contest.
Record t : Type := mk {
  name : string;
  slug : string;
  description : option string;
  geography : option string;
  precincts_reporting : string;
  candidates : list CandidateResult.t
}.
End Contest.

Module TransformedBatch.
Record t : Type := mk {
  scraped_datetime : string;
  races : list Contest.t
}.
End TransformedBatch.

(** ** Collaborators outside the file *)

(** Modelled from the spec: [slugify] (the python-slugify package) and the
    two schema classes of schema.py are not under src/. The slug is a
    function of the title; a schema either accepts a transformed record as
    it is or rejects it. *)
Class Collaborators : Type := {
  slugify : string -> string;
  CandidateResult_schema : CandidateResult.t -> bool;
  Contest_schema : Contest.t -> bool
}.

(** Modelled from the spec: [schema.BaseTransformer] is not under src/.
    A transformer holds the raw record and the corrections;
    [dump] transforms the record and validates it against the schema of the
    class, and a rejection fails the run. *)
Module BaseTransformer.
Definition dump {A} (schema : A -> bool) (transform_data : result A)
  : result A :=
  data ← transform_data;
  if schema data then Ok data else Raise ValidationError.
End BaseTransformer.

(** ** get_corrections *)

(** [{d["raw_name"]: d for d in correx_reader}] over the rows of the file
    in order. *)
Definition get_corrections (rows : list Correction.t)
  : gmap string Correction.t :=
  foldl (fun m d => <[Correction.raw_name d := d]> m) ∅ rows.

(** ** CandidateResultTransformer *)

Module CandidateResultTransformer.
Section Methods.
Context `{Collaborators}.

Definition clean_votes (value : string) : result Z :=
  let s := Str.remove_char ","%char (Str.strip value) in
  Str.int s.

Definition transform_data (raw : RawCandidate.t)
  : result CandidateResult.t :=
  name ← getitem "Name" (RawCandidate.Name raw);
  let party := RawCandidate.Party raw in
  value ← getitem "Votes" (RawCandidate.Votes raw);
  votes ← clean_votes value;
  votes_percent ← getitem "votes_percent" (RawCandidate.votes_percent raw);
  let incumbent := RawCandidate.incumbent raw in
  Ok (CandidateResult.mk name party votes votes_percent incumbent).

Definition dump (raw : RawCandidate.t) : result CandidateResult.t :=
  BaseTransformer.dump CandidateResult_schema (transform_data raw).

End Methods.
End CandidateResultTransformer.

(** ** ContestTransformer *)

Module ContestTransformer.

(** [self]: the raw contest and the corrections, set by the constructor. *)
Record t : Type := mk {
  raw : RawContest.t;
  corrections : gmap string Correction.t
}.

Section Methods.
Context `{Collaborators}.

Definition clean_votes (value : string) : result Z :=
  let s := Str.remove_char ","%char (Str.strip value) in
  Str.int s.

(** The lookup raises [KeyError] for a missing title as for a missing
    row, and both are caught. *)
Definition _get_correction (self : t) : option Correction.t :=
  match RawContest.raceTitle (raw self) with
  | Some title => corrections self !! title
  | None => None
  end.

Definition include (self : t) : result bool :=
  match _get_correction self with
  | None => Ok true
  | Some correction =>
      match Correction.include correction with
      | Some flag => Ok (String.eqb (Str.lower flag) "yes")
      | None => Raise AttributeError
      end
  end.

Definition correct_name (self : t) : result string :=
  match _get_correction self with
  | None => getitem "raceTitle" (RawContest.raceTitle (raw self))
  | Some correction =>
      match Correction.clean_name correction with
      | Some clean =>
          if Str.truthy clean then Ok clean
          else getitem "raceTitle" (RawContest.raceTitle (raw self))
      | None => getitem "raceTitle" (RawContest.raceTitle (raw self))
      end
  end.

(** [value or None] *)
Definition or_None (value : option string) : option string :=
  match value with
  | Some s => if Str.truthy s then Some s else None
  | None => None
  end.

Definition correct_description (self : t) : option string :=
  match _get_correction self with
  | None => None
  | Some correction => or_None (Correction.clean_description correction)
  end.

Definition correct_geography (self : t) : option string :=
  match _get_correction self with
  | None => None
  | Some correction => or_None (Correction.clean_geography correction)
  end.

Definition correct_incumbent (self : t)
    (candidate_list : list RawCandidate.t)
  : result (list RawCandidate.t) :=
  match _get_correction self with
  | None => Ok candidate_list
  | Some correction =>
      match or_None (Correction.incumbent correction) with
      | None => Ok candidate_list
      | Some incumbents =>
          for_each
            (fun c =>
               name ← getitem "Name" (RawCandidate.Name c);
               Ok (RawCandidate.set_incumbent
                     (Str.contains name incumbents) c))
            candidate_list
      end
  end.

(** [sum(...)] over integers. *)
Definition sum (l : list Z) : Z := fold_right Z.add 0 l.

Definition parse_votes (c : RawCandidate.t) : result Z :=
  value ← getitem "Votes" (RawCandidate.Votes c);
  clean_votes value.

(** The body of the loop that sets the vote percentages. *)
Definition set_votes_percent (vote_total : Z) (c : RawCandidate.t)
  : result RawCandidate.t :=
  if 0 <? vote_total then
    votes ← parse_votes c;
    share ← Float.true_div votes vote_total;
    Ok (RawCandidate.set_votes_percent (Float.round4 share) c)
  else
    Ok (RawCandidate.set_votes_percent Float.zero c).

Definition transform_data (self : t) : result Contest.t :=
  name ← correct_name self;
  title ← getitem "raceTitle" (RawContest.raceTitle (raw self));
  let slug := slugify title in
  let description := correct_description self in
  let geography := correct_geography self in
  precincts_reporting ← getitem "Reporting" (RawContest.Reporting (raw self));
  (* Mark incumbents *)
  raw_candidates ← getitem "candidates" (RawContest.candidates (raw self));
  candidate_list ← correct_incumbent self raw_candidates;
  (* Set vote percentages *)
  parsed ← for_each parse_votes candidate_list;
  let vote_total := sum parsed in
  candidate_list ← for_each (set_votes_percent vote_total) candidate_list;
  (* Validate candidate objects *)
  candidate_list ← for_each CandidateResultTransformer.dump candidate_list;
  Ok (Contest.mk name slug description geography precincts_reporting
        candidate_list).

Definition dump (self : t) : result Contest.t :=
  BaseTransformer.dump Contest_schema (transform_data self).

End Methods.
End ContestTransformer.

(** ** cli *)

(** Modelled from the spec: [utils.write_json] is not under src/. The
    transformed-data directory is a map from file names to the batch each
    file holds; writing a file replaces what the name held. *)
Module utils.
Definition write_json (data : TransformedBatch.t) (path : string)
    (dir : gmap string TransformedBatch.t)
  : gmap string TransformedBatch.t :=
  <[path := data]> dir.
End utils.

Module cli.

(** [{"Name": name, "Votes": votes}] *)
Definition option_candidate (name votes : string) : RawCandidate.t :=
  RawCandidate.mk (Some name) None (Some votes) None None.

(** The body of the loop over the files: the contests one raw file
    contributes. [slug] is the name of the directory the file is in. *)
Definition flatten_file (slug : string) (raw_data : RawDocument.t)
  : result (list RawContest.t) :=
  match RawDocument.races raw_data with
  | Some races => Ok races
  | None =>
      if String.eqb slug "supreme-court" then
        entries ← getitem "supreme-court" (RawDocument.supreme_court raw_data);
        for_each
          (fun race =>
             name ← getitem "Name" (Retention.Name race);
             reporting ← getitem "Reporting" (RawDocument.Reporting raw_data);
             yes ← getitem "yesVotes" (Retention.yesVotes race);
             no ← getitem "noVotes" (Retention.noVotes race);
             Ok (RawContest.mk
                   (Some ("Retain Supreme Court Justice " ++ name))
                   (Some reporting)
                   (Some [option_candidate "Yes" yes;
                          option_candidate "No" no])))
          entries
      else if String.eqb slug "ballot-measures" then
        entries ← getitem "ballot-measures" (RawDocument.ballot_measures raw_data);
        for_each
          (fun race =>
             number ← getitem "Number" (Measure.Number race);
             name ← getitem "Name" (Measure.Name race);
             reporting ← getitem "Reporting" (RawDocument.Reporting raw_data);
             yes ← getitem "yesVotes" (Measure.yesVotes race);
             no ← getitem "noVotes" (Measure.noVotes race);
             Ok (RawContest.mk
                   (Some ("Proposition " ++ number ++ ": " ++ name))
                   (Some reporting)
                   (Some [option_candidate "Yes" yes;
                          option_candidate "No" no])))
          entries
      else Ok [RawDocument.as_contest raw_data]
  end.

(** Flatten the race list: the files in discovery order. *)
Fixpoint flatten (file_list : list (string * RawDocument.t))
  : result (list RawContest.t) :=
  match file_list with
  | [] => Ok []
  | (slug, raw_data) :: rest =>
      contests ← flatten_file slug raw_data;
      more ← flatten rest;
      Ok (contests ++ more)%list
  end.

Section Driver.
Context `{Collaborators}.

(** The loop over [contest_list], giving [transformed_list["races"]]. *)
Fixpoint transform_contests (corrections : gmap string Correction.t)
    (contest_list : list RawContest.t) : result (list Contest.t) :=
  match contest_list with
  | [] => Ok []
  | contest :: rest =>
      let obj := ContestTransformer.mk contest corrections in
      ContestTransformer.include obj ≫= fun keep : bool =>
      if keep then
        record ← ContestTransformer.dump obj;
        records ← transform_contests corrections rest;
        Ok (record :: records)
      else transform_contests corrections rest
  end.

(** The races of a run: flattening, then the loop. *)
Definition races_of (file_list : list (string * RawDocument.t))
    (correx_rows : list Correction.t) : result (list Contest.t) :=
  contest_list ← flatten file_list;
  transform_contests (get_corrections correx_rows) contest_list.

(** A run: the raw files read, the clock, the rows of the corrections
    file and the transformed-data directory before the run; the outcome
    and the directory after it. *)
Definition cli (file_list : list (string * RawDocument.t))
    (now : string) (correx_rows : list Correction.t)
    (dir : gmap string TransformedBatch.t)
  : result unit * gmap string TransformedBatch.t :=
  match races_of file_list correx_rows with
  | Raise e => (Raise e, dir)
  | Ok races =>
      let transformed_list := TransformedBatch.mk now races in
      (* Write out a timestamped file *)
      let dir := utils.write_json transformed_list (now ++ ".json") dir in
      (* Overwrite the latest file *)
      let dir := utils.write_json transformed_list "latest.json" dir in
      (Ok tt, dir)
  end.

(** Get all of the files: the comprehension keeps the order in which the
    glob yields its objects. *)
Definition file_list (obj_list : list RawFile.t) : list RawFile.t :=
  List.filter
    (fun o => RawFile.is_file o && Str.contains "latest.json" (RawFile.str o))
    obj_list.

(** What the loop over the files reads of each file: the slug and the
    document. *)
Definition read (file_list : list RawFile.t)
  : list (string * RawDocument.t) :=
  map (fun file_path =>
         (RawFile.parent_stem file_path, RawFile.content file_path))
    file_list.

(** The races of a run, from the objects in the order the glob yielded
    them. *)
Definition races_from (obj_list : list RawFile.t)
    (correx_rows : list Correction.t) : result (list Contest.t) :=
  races_of (read (file_list obj_list)) correx_rows.

(** A whole run, from the objects in the order the glob yielded them. *)
Definition main (obj_list : list RawFile.t) (now : string)
    (correx_rows : list Correction.t)
    (dir : gmap string TransformedBatch.t)
  : result unit * gmap string TransformedBatch.t :=
  cli (read (file_list obj_list)) now correx_rows dir.

End Driver.
End cli.

(** ** The words of the specification, for comparison with the code *)

Module Spec.

(** "no correction row exists for its exact raw title, or the correction
    row's include flag compared case-insensitively equals yes" *)
Definition included (corrections : gmap string Correction.t)
    (contest : RawContest.t) : bool :=
  match RawContest.raceTitle contest with
  | None => true
  | Some title =>
      match corrections !! title with
      | None => true
      | Some row =>
          match Correction.include row with
          | Some flag => String.eqb (Str.lower flag) "yes"
          | None => false
          end
      end
  end.

(** "if the total of parsed votes is > 0, each candidate's votes_percent
    equals round(votes/total, 4 decimal places); [otherwise it] is exactly
    0.0": the share [x] of a candidate with [votes] votes in a contest of
    [vote_total] votes. *)
Definition share_of (vote_total votes : Z) (x : Float.float) : Prop :=
  (0 < vote_total ->
   exists share,
     Float.true_div votes vote_total = Ok share /\ x = Float.round4 share)
  /\ (vote_total <= 0 -> x = Float.zero).

(** "identical raw input files": two listings of the raw directory hold
    the same objects. The glob promises no order, so the listings of two
    runs may differ in it. *)
Definition same_files (obj_list1 obj_list2 : list RawFile.t) : Prop :=
  Permutation obj_list1 obj_list2.

(** Every character of [s] satisfies [p]; some character does. *)
Fixpoint all (p : ascii -> bool) (s : string) : bool :=
  match s with
  | EmptyString => true
  | String c rest => p c && all p rest
  end.

Fixpoint some (p : ascii -> bool) (s : string) : bool :=
  match s with
  | EmptyString => false
  | String c rest => p c || some p rest
  end.

Definition is_digit (c : ascii) : bool :=
  match Str.digit_value c with Some _ => true | None => false end.

Definition is_comma (c : ascii) : bool := Ascii.eqb c ","%char.

(** A character that can be part of no vote count: neither a digit, a
    comma, white space, a sign nor an underscore. *)
Definition foreign (c : ascii) : bool :=
  negb (is_digit c || is_comma c || Str.isspace c
        || Ascii.eqb c "+"%char || Ascii.eqb c "-"%char
        || Ascii.eqb c "_"%char).

(** The number the decimal digits of [s] denote, other characters
    skipped. *)
Fixpoint decimal_from (acc : Z) (s : string) : Z :=
  match s with
  | EmptyString => acc
  | String c rest =>
      match Str.digit_value c with
      | Some d => decimal_from (10 * acc + d) rest
      | None => decimal_from acc rest
      end
  end.

Definition decimal (s : string) : Z := decimal_from 0 s.

(** A decimal literal without a sign: decimal digits, where a single
    underscore may stand between two digits. *)
Inductive digits : string -> Prop :=
| digits_one c :
    is_digit c = true -> digits (String c EmptyString)
| digits_more c rest :
    is_digit c = true -> digits rest -> digits (String c rest)
| digits_underscore c rest :
    is_digit c = true -> digits rest -> digits (String c (String "_" rest)).

(** A literal with an optional sign, and the integer it denotes. *)
Definition signed (body : string) (n : Z) : Prop :=
  (digits body /\ n = decimal body)
  \/ (exists u, body = String "+" u /\ digits u /\ n = decimal u)
  \/ (exists u, body = String "-" u /\ digits u /\ n = - decimal u).

(** "yields an integer": a signed literal with the white space [int]
    allows around it. *)
Definition int_literal (s : string) (n : Z) : Prop :=
  exists l body r,
    s = l ++ body ++ r
    /\ all Str.int_isspace l = true
    /\ all Str.int_isspace r = true
    /\ signed body n.

(** "removes thousands-separator commas" *)
Definition without_commas (s : string) : string :=
  string_of_list_ascii
    (List.filter (fun c => negb (is_comma c)) (list_ascii_of_string s)).

Definition first_char (s : string) : option ascii :=
  match s with
  | EmptyString => None
  | String c _ => Some c
  end.

Fixpoint last_char (s : string) : option ascii :=
  match s with
  | EmptyString => None
  | String c EmptyString => Some c
  | String _ rest => last_char rest
  end.

(** "strips surrounding whitespace": what is left neither starts nor ends
    with white space. *)
Definition trimmed (core : string) : Prop :=
  (forall c, first_char core = Some c -> Str.isspace c = false)
  /\ (forall c, last_char core = Some c -> Str.isspace c = false).

(** The row a title is corrected by: the last row of the file that has this
    [raw_name]. *)
Definition last_row (rows : list Correction.t) (title : string)
  : option Correction.t :=
  List.find (fun d => String.eqb (Correction.raw_name d) title) (rev rows).

(** The spellings of yes that differ by case alone. *)
Definition yes_spellings : list string :=
  ["yes"; "yeS"; "yEs"; "yES"; "Yes"; "YeS"; "YEs"; "YES"].

End Spec.

(** ** Sample data *)

Module Sample.

(** A stand-in for python-slugify: lower case, blanks turned into
    hyphens. *)
Fixpoint hyphenate (s : string) : string :=
  match s with
  | EmptyString => EmptyString
  | String c rest =>
      String (if Ascii.eqb c " " then "-"%char else c) (hyphenate rest)
  end.

(** Modelled from the spec: the constraints section 3 gives for a
    canonical candidate, votes at least 0 and a share within [0, 1]. *)
Definition collaborators : Collaborators := {|
  slugify := fun title => hyphenate (Str.lower title);
  CandidateResult_schema := fun c =>
    (0 <=? CandidateResult.votes c)
    && Qle_bool 0 (CandidateResult.votes_percent c)
    && Qle_bool (CandidateResult.votes_percent c) 1;
  Contest_schema := fun _ => true
|}.

Definition candidate (name votes : string) : RawCandidate.t :=
  RawCandidate.mk (Some name) None (Some votes) None None.

Definition alice : RawCandidate.t :=
  RawCandidate.mk (Some "Alice") (Some "Dem") (Some "1,000") None None.
Definition bob : RawCandidate.t := candidate "Bob" " 500 ".
Definition carol : RawCandidate.t :=
  RawCandidate.mk (Some "Carol") None (Some "0") (Some true) None.

Definition mayor : RawContest.t :=
  RawContest.mk (Some "Mayor") (Some "100%") (Some [alice; bob; carol]).
Definition clerk : RawContest.t :=
  RawContest.mk (Some "City Clerk") (Some "100%")
    (Some [candidate "Dan" "0"; candidate "Eve" "0"]).
Definition dog_catcher : RawContest.t :=
  RawContest.mk (Some "Dog Catcher") (Some "5%")
    (Some [candidate "Fay" "12"]).
(** Six candidates with one vote each. *)
Definition council : RawContest.t :=
  RawContest.mk (Some "Council") (Some "100%")
    (Some (map (fun name => candidate name "1")
             ["A"; "B"; "C"; "D"; "E"; "F"])).
Definition treasurer : RawContest.t :=
  RawContest.mk (Some "Treasurer") (Some "50%")
    (Some [candidate "Gus" "7"; candidate "Hal" "x"]).

Definition correx_rows : list Correction.t :=
  [ Correction.mk "Mayor" (Some "Yes") (Some "Mayor of Springfield")
      (Some EmptyString) (Some "Springfield") (Some "Alice");
    Correction.mk "Dog Catcher" (Some "no") (Some EmptyString) (Some EmptyString) (Some EmptyString)
      (Some EmptyString) ].

Definition corrections : gmap string Correction.t :=
  get_corrections correx_rows.

Definition mayor_obj : ContestTransformer.t :=
  ContestTransformer.mk mayor corrections.
Definition clerk_obj : ContestTransformer.t :=
  ContestTransformer.mk clerk corrections.

(** The mayor's contest, transformed. *)
Definition mayor_data : Contest.t :=
  Contest.mk "Mayor of Springfield" "mayor" None (Some "Springfield")
    "100%"
    [ CandidateResult.mk "Alice" (Some "Dem") 1000
        (6005099743135819 # 9007199254740992)%Q (Some true);
      CandidateResult.mk "Bob" None 500
        (6004199023210345 # 18014398509481984)%Q (Some false);
      CandidateResult.mk "Carol" None 0 0%Q (Some false) ].

Definition clerk_data : Contest.t :=
  Contest.mk "City Clerk" "city-clerk" None None "100%"
    [ CandidateResult.mk "Dan" None 0 0%Q None;
      CandidateResult.mk "Eve" None 0 0%Q None ].

Definition supreme_court : RawDocument.t :=
  RawDocument.mk None
    (Some [Retention.mk (Some "Smith") (Some "100") (Some "50")])
    None None (Some "80%") None.

Definition ballot_measures : RawDocument.t :=
  RawDocument.mk None None
    (Some [Measure.mk (Some "1") (Some "Tax Reform") (Some "10") (Some "0")])
    None (Some "100%") None.

Definition race_list : RawDocument.t :=
  RawDocument.mk (Some [mayor; dog_catcher; clerk]) None None None None None.

Definition court_data : Contest.t :=
  Contest.mk "Retain Supreme Court Justice Smith"
    "retain-supreme-court-justice-smith" None None "80%"
    [ CandidateResult.mk "Yes" None 100
        (6005099743135819 # 9007199254740992)%Q None;
      CandidateResult.mk "No" None 50
        (6004199023210345 # 18014398509481984)%Q None ].

Definition council_obj : ContestTransformer.t :=
  ContestTransformer.mk council corrections.

(** Each of the six gets round(1 / 6, 4), the double nearest to 0.1667. *)
Definition council_data : Contest.t :=
  Contest.mk "Council" "council" None None "100%"
    (map (fun name =>
            CandidateResult.mk name None 1
              (6006000463061293 # 36028797018963968)%Q None)
       ["A"; "B"; "C"; "D"; "E"; "F"]).

(** Collaborators whose schemas accept every record. *)
Definition lenient : Collaborators := {|
  slugify := fun title => hyphenate (Str.lower title);
  CandidateResult_schema := fun _ => true;
  Contest_schema := fun _ => true
|}.

(** A contest with a negative count that outweighs the others. *)
Definition recount_obj : ContestTransformer.t :=
  ContestTransformer.mk
    (RawContest.mk (Some "Recount") (Some "1%")
       (Some [candidate "Ida" "-5"; candidate "Jon" "3"]))
    corrections.

Definition recount_data : Contest.t :=
  Contest.mk "Recount" "recount" None None "1%"
    [ CandidateResult.mk "Ida" None (-5) 0%Q None;
      CandidateResult.mk "Jon" None 3 0%Q None ].

(** The objects of a raw directory: two snapshots, an older file and a
    directory. *)
Definition governor_file : RawFile.t :=
  RawFile.mk "raw/ca_secretary_of_state/governor/latest.json" true
    "governor"
    (RawDocument.mk (Some [clerk]) None None None None None).
Definition court_file : RawFile.t :=
  RawFile.mk "raw/ca_secretary_of_state/supreme-court/latest.json" true
    "supreme-court" supreme_court.
Definition old_file : RawFile.t :=
  RawFile.mk "raw/ca_secretary_of_state/governor/2022-11-08.json" true
    "governor"
    (RawDocument.mk (Some [mayor]) None None None None None).
Definition governor_dir : RawFile.t :=
  RawFile.mk "raw/ca_secretary_of_state/governor" false
    "ca_secretary_of_state"
    (RawDocument.mk None None None None None None).

(** A race list whose second contest has a malformed vote count. *)
Definition bad_race_list : RawDocument.t :=
  RawDocument.mk (Some [mayor; treasurer]) None None None None None.

(** A transformed-data directory left by an earlier run. *)
Definition old_dir : gmap string TransformedBatch.t :=
  <["latest.json" := TransformedBatch.mk "2022-11-08T20:00:00" [clerk_data]]>
    (<["2022-11-08T20:00:00.json"
       := TransformedBatch.mk "2022-11-08T20:00:00" [clerk_data]]> ∅).

End Sample.

(** * Properties *)

Example clean_votes_1 : ContestTransformer.clean_votes "12,345" = Ok 12345.
Proof. reflexivity. Qed.
Example clean_votes_2 : ContestTransformer.clean_votes " 42 " = Ok 42.
Proof. reflexivity. Qed.
Example clean_votes_3 : ContestTransformer.clean_votes "abc" = Raise ValueError.
Proof. reflexivity. Qed.
Example clean_votes_4 : ContestTransformer.clean_votes "-5" = Ok (-5).
Proof. reflexivity. Qed.
Example clean_votes_5 : ContestTransformer.clean_votes "1_000" = Ok 1000.
Proof. reflexivity. Qed.
Example clean_votes_6 : ContestTransformer.clean_votes EmptyString = Raise ValueError.
Proof. reflexivity. Qed.

(** ** Vote counts *)

Section StringFacts.
Variable sp : ascii -> bool.

Lemma lstrip_with_spaces l s :
  Spec.all sp l = true -> Str.lstrip_with sp (l ++ s) = Str.lstrip_with sp s.
Proof.
  induction l as [|c l IH]; simpl; [reflexivity|].
  intros [Hc Hl]%andb_prop. rewrite Hc. auto.
Qed.

Lemma rstrip_with_spaces r :
  Spec.all sp r = true -> Str.rstrip_with sp r = EmptyString.
Proof.
  induction r as [|c r IH]; simpl; [reflexivity|].
  intros [Hc Hr]%andb_prop. rewrite (IH Hr), Hc. reflexivity.
Qed.

Lemma rstrip_with_app s r :
  Spec.all sp r = true ->
  Str.rstrip_with sp (s ++ r) = Str.rstrip_with sp s.
Proof.
  intros Hr. induction s as [|c s IH]; simpl.
  - apply rstrip_with_spaces, Hr.
  - rewrite IH. reflexivity.
Qed.

(** A string without white space at either end is left as it is. *)
Lemma lstrip_with_none s :
  Spec.all (fun c => negb (sp c)) s = true -> Str.lstrip_with sp s = s.
Proof.
  destruct s as [|c s]; simpl; [reflexivity|].
  intros [Hc _]%andb_prop. apply negb_true_iff in Hc. rewrite Hc.
  reflexivity.
Qed.

Lemma rstrip_with_none s :
  Spec.all (fun c => negb (sp c)) s = true -> Str.rstrip_with sp s = s.
Proof.
  induction s as [|c s IH]; simpl; [reflexivity|].
  intros [Hc Hs]%andb_prop. apply negb_true_iff in Hc.
  rewrite (IH Hs), Hc. destruct s; reflexivity.
Qed.

(** Stripping keeps every character that is not white space. *)
Lemma lstrip_with_some p s :
  (forall c, p c = true -> sp c = false) ->
  Spec.some p s = true -> Spec.some p (Str.lstrip_with sp s) = true.
Proof.
  intros Hp. induction s as [|c s IH]; simpl; [discriminate|].
  intros Hs. destruct (sp c) eqn:Hc; simpl.
  - apply IH. destruct (p c) eqn:Hpc; [|exact Hs].
    rewrite (Hp _ Hpc) in Hc. discriminate.
  - exact Hs.
Qed.

Lemma rstrip_with_some p s :
  (forall c, p c = true -> sp c = false) ->
  Spec.some p s = true -> Spec.some p (Str.rstrip_with sp s) = true.
Proof.
  intros Hp. induction s as [|c s IH]; simpl; [discriminate|].
  intros Hs. destruct (p c) eqn:Hpc; simpl in Hs.
  - destruct (Str.rstrip_with sp s); simpl.
    + rewrite (Hp _ Hpc). simpl. rewrite Hpc. reflexivity.
    + rewrite Hpc. reflexivity.
  - specialize (IH Hs). destruct (Str.rstrip_with sp s); simpl in *.
    + discriminate.
    + rewrite Hpc. exact IH.
Qed.

End StringFacts.

Lemma all_impl (p q : ascii -> bool) s :
  (forall c, p c = true -> q c = true) ->
  Spec.all p s = true -> Spec.all q s = true.
Proof.
  intros Hpq. induction s as [|c s IH]; simpl; [reflexivity|].
  intros [Hc Hs]%andb_prop. rewrite (Hpq _ Hc), (IH Hs). reflexivity.
Qed.

(** Facts on single characters, by enumeration of the 256 code points. *)
Ltac by_cases_on_char c :=
  destruct c as [[] [] [] [] [] [] [] []]; vm_compute;
  try reflexivity; try discriminate; intuition congruence.

Lemma digit_not_isspace c : Spec.is_digit c = true -> Str.isspace c = false.
Proof. by_cases_on_char c. Qed.

Lemma digit_not_int_isspace c :
  Spec.is_digit c = true -> Str.int_isspace c = false.
Proof. by_cases_on_char c. Qed.

Lemma comma_not_isspace c : Spec.is_comma c = true -> Str.isspace c = false.
Proof. by_cases_on_char c. Qed.

Lemma digit_not_sign c :
  Spec.is_digit c = true -> c <> "-"%char /\ c <> "+"%char.
Proof. by_cases_on_char c. Qed.

Lemma digit_value_range c d : Str.digit_value c = Some d -> 0 <= d <= 9.
Proof.
  unfold Str.digit_value. destruct (_ && _) eqn:E; [|discriminate].
  intros [= <-]. lia.
Qed.

Lemma foreign_spec c :
  Spec.foreign c = true ->
  Str.digit_value c = None /\ Ascii.eqb c "," = false
  /\ Str.isspace c = false /\ Str.int_isspace c = false
  /\ c <> "+"%char /\ c <> "-"%char /\ Ascii.eqb c "_" = false.
Proof. by_cases_on_char c. Qed.

Lemma decimal_from_nonneg s : forall acc, 0 <= acc -> 0 <= Spec.decimal_from acc s.
Proof.
  induction s as [|c s IH]; simpl; intros acc Hacc; [exact Hacc|].
  destruct (Str.digit_value c) as [d|] eqn:Hd; apply IH; [|exact Hacc].
  apply digit_value_range in Hd. lia.
Qed.

(** Removing the commas of a string of digits and commas leaves its
    digits. *)
Lemma remove_commas_digits body :
  Spec.all (fun c => Spec.is_digit c || Spec.is_comma c) body = true ->
  Spec.all Spec.is_digit (Str.remove_char "," body) = true
  /\ (forall acc, Spec.decimal_from acc (Str.remove_char "," body)
                  = Spec.decimal_from acc body)
  /\ Spec.some Spec.is_digit (Str.remove_char "," body)
     = Spec.some Spec.is_digit body.
Proof.
  induction body as [|c s IH]; simpl; [auto|].
  intros [Hc Hs]%andb_prop. destruct (IH Hs) as (IH1 & IH2 & IH3).
  destruct (Ascii.eqb c ",") eqn:Hcomma.
  - apply Ascii.eqb_eq in Hcomma. subst c. simpl. auto.
  - unfold Spec.is_comma in Hc. rewrite Hcomma, orb_false_r in Hc.
    simpl. rewrite Hc, IH1, IH3. repeat split.
    intros acc. destruct (Str.digit_value c); apply IH2.
Qed.

Lemma int_digits_of_digits s :
  Spec.all Spec.is_digit s = true ->
  forall acc after,
    Str.int_digits acc after s
    = if after || Spec.some Spec.is_digit s
      then Some (Spec.decimal_from acc s) else None.
Proof.
  induction s as [|c s IH]; simpl; intros Hs acc after.
  - rewrite orb_false_r. reflexivity.
  - apply andb_prop in Hs as [Hc Hs]. rewrite Hc.
    unfold Spec.is_digit in Hc.
    destruct (Str.digit_value c) as [d|]; [|discriminate].
    rewrite (IH Hs). rewrite orb_true_r. reflexivity.
Qed.

(** [int] on a non-empty string of decimal digits. *)
Lemma int_of_digits s :
  Spec.all Spec.is_digit s = true ->
  Spec.some Spec.is_digit s = true ->
  Str.int s = Ok (Spec.decimal s).
Proof.
  intros Hall Hsome. unfold Str.int.
  assert (Hns : Spec.all (fun c => negb (Str.int_isspace c)) s = true).
  { revert Hall. apply all_impl. intros c Hc.
    rewrite (digit_not_int_isspace _ Hc). reflexivity. }
  rewrite (lstrip_with_none _ _ Hns), (rstrip_with_none _ _ Hns).
  destruct s as [|c s]; [discriminate|].
  pose proof Hall as Hc. simpl in Hc. apply andb_prop in Hc as [Hc _].
  destruct (digit_not_sign _ Hc) as [Hminus Hplus].
  assert (Hbody :
    match String c s with
    | String "-" digits => option_map Z.opp (Str.int_digits 0 false digits)
    | String "+" digits => Str.int_digits 0 false digits
    | _ => Str.int_digits 0 false (String c s)
    end = Str.int_digits 0 false (String c s)).
  { destruct c as [[] [] [] [] [] [] [] []]; try reflexivity; congruence. }
  rewrite Hbody, (int_digits_of_digits _ Hall), Hsome. reflexivity.
Qed.

(** A character that is neither a digit nor an underscore ends the
    literal. *)
Lemma int_digits_foreign s :
  Spec.some (fun c => negb (Spec.is_digit c) && negb (Ascii.eqb c "_")) s = true ->
  forall acc after, Str.int_digits acc after s = None.
Proof.
  induction s as [|c s IH]; simpl; [discriminate|].
  intros Hs acc after. unfold Spec.is_digit in Hs.
  destruct (Str.digit_value c) as [d|]; simpl in Hs.
  - apply IH, Hs.
  - destruct (Ascii.eqb c "_"); simpl in *.
    + destruct after; [apply IH, Hs | reflexivity].
    + reflexivity.
Qed.

Lemma some_impl (p q : ascii -> bool) s :
  (forall c, p c = true -> q c = true) ->
  Spec.some p s = true -> Spec.some q s = true.
Proof.
  intros Hpq. induction s as [|c s IH]; simpl; [discriminate|].
  intros [Hc|Hs]%orb_prop.
  - rewrite (Hpq _ Hc). reflexivity.
  - rewrite (IH Hs). apply orb_true_r.
Qed.

Lemma remove_char_some p old s :
  (forall c, p c = true -> Ascii.eqb c old = false) ->
  Spec.some p s = true -> Spec.some p (Str.remove_char old s) = true.
Proof.
  intros Hp. induction s as [|c s IH]; simpl; [discriminate|].
  intros Hs. destruct (p c) eqn:Hpc; simpl in Hs.
  - rewrite (Hp _ Hpc). simpl. rewrite Hpc. reflexivity.
  - destruct (Ascii.eqb c old); simpl; [|rewrite Hpc]; apply IH, Hs.
Qed.

(** [int] raises on a string that holds a foreign character. *)
Lemma int_foreign s :
  Spec.some Spec.foreign s = true -> Str.int s = Raise ValueError.
Proof.
  intros Hs. unfold Str.int.
  assert (Hsp : forall c, Spec.foreign c = true -> Str.int_isspace c = false)
    by (intros c Hc; apply foreign_spec in Hc; tauto).
  apply (lstrip_with_some _ _ _ Hsp), (rstrip_with_some _ _ _ Hsp) in Hs.
  set (body := Str.rstrip_with _ _) in *. clearbody body.
  assert (Hend : forall t, Spec.some Spec.foreign t = true ->
                           Str.int_digits 0 false t = None).
  { intros t Ht. apply int_digits_foreign. revert Ht. apply some_impl.
    intros c Hc. apply foreign_spec in Hc as (Hd & _ & _ & _ & _ & _ & Hu).
    unfold Spec.is_digit. rewrite Hd, Hu. reflexivity. }
  destruct body as [|c digits]; [discriminate|].
  destruct (Ascii.eqb c "-") eqn:Hminus.
  { apply Ascii.eqb_eq in Hminus. subst c. simpl in Hs.
    rewrite (Hend _ Hs). reflexivity. }
  destruct (Ascii.eqb c "+") eqn:Hplus.
  { apply Ascii.eqb_eq in Hplus. subst c. simpl in Hs.
    rewrite (Hend _ Hs). reflexivity. }
  assert (Hbody :
    match String c digits with
    | String "-" t => option_map Z.opp (Str.int_digits 0 false t)
    | String "+" t => Str.int_digits 0 false t
    | _ => Str.int_digits 0 false (String c digits)
    end = Str.int_digits 0 false (String c digits)).
  { destruct c as [[] [] [] [] [] [] [] []]; try reflexivity;
      discriminate. }
  rewrite Hbody, (Hend _ Hs). reflexivity.
Qed.

Lemma clean_votes_of_digits l body r :
  Spec.all Str.isspace l = true ->
  Spec.all Str.isspace r = true ->
  Spec.all (fun c => Spec.is_digit c || Spec.is_comma c) body = true ->
  Spec.some Spec.is_digit body = true ->
  ContestTransformer.clean_votes (l ++ body ++ r) = Ok (Spec.decimal body).
Proof.
  intros Hl Hr Hbody Hdigit. unfold ContestTransformer.clean_votes, Str.strip.
  rewrite (lstrip_with_spaces _ _ _ Hl).
  assert (Hns : Spec.all (fun c => negb (Str.isspace c)) body = true).
  { revert Hbody. apply all_impl. intros c [Hc|Hc]%orb_prop.
    - rewrite (digit_not_isspace _ Hc). reflexivity.
    - rewrite (comma_not_isspace _ Hc). reflexivity. }
  assert (Hfirst : Str.lstrip_with Str.isspace (body ++ r) = body ++ r).
  { destruct body as [|c s]; [discriminate|]. simpl in *.
    apply andb_prop in Hns as [Hc _]. apply negb_true_iff in Hc.
    rewrite Hc. reflexivity. }
  rewrite Hfirst, (rstrip_with_app _ _ _ Hr), (rstrip_with_none _ _ Hns).
  destruct (remove_commas_digits _ Hbody) as (Hall & Hval & Hsome).
  rewrite int_of_digits; [|exact Hall|congruence].
  unfold Spec.decimal. rewrite Hval. reflexivity.
Qed.

Lemma clean_votes_of_foreign value :
  Spec.some Spec.foreign value = true ->
  ContestTransformer.clean_votes value = Raise ValueError.
Proof.
  intros Hv. unfold ContestTransformer.clean_votes, Str.strip.
  apply int_foreign, remove_char_some.
  { intros c Hc. apply foreign_spec in Hc. tauto. }
  assert (Hsp : forall c, Spec.foreign c = true -> Str.isspace c = false)
    by (intros c Hc; apply foreign_spec in Hc; tauto).
  apply (rstrip_with_some _ _ _ Hsp), (lstrip_with_some _ _ _ Hsp), Hv.
Qed.

Lemma clean_votes_raises value e :
  ContestTransformer.clean_votes value = Raise e -> e = ValueError.
Proof.
  unfold ContestTransformer.clean_votes, Str.int.
  destruct (match Str.rstrip_with _ _ with EmptyString => _ | _ => _ end);
    congruence.
Qed.

(** ** Integer literals *)

Lemma digits_first s :
  Spec.digits s -> exists c rest, s = String c rest /\ Spec.is_digit c = true.
Proof. intros Hs. destruct Hs; eauto. Qed.

(** What can follow a digit of a literal. *)
Lemma digits_cons c rest :
  Spec.is_digit c = true ->
  Spec.digits (String c rest) <->
  rest = EmptyString \/ Spec.digits rest
  \/ exists t, rest = String "_" t /\ Spec.digits t.
Proof.
  intros Hc. split.
  - intros Hs. inversion Hs; subst; eauto.
  - intros [->|[Hrest|(t & -> & Ht)]].
    + apply Spec.digits_one, Hc.
    + apply Spec.digits_more; assumption.
    + apply Spec.digits_underscore; assumption.
Qed.

Lemma int_digits_spec s :
  forall acc after n,
    Str.int_digits acc after s = Some n <->
    n = Spec.decimal_from acc s
    /\ (Spec.digits s
        \/ (after = true
            /\ (s = EmptyString
                \/ exists t, s = String "_" t /\ Spec.digits t))).
Proof.
  induction s as [|c s IH]; intros acc after n.
  - simpl. split.
    + destruct after; [|discriminate]. intros [= <-]. auto.
    + intros [-> [Hd|[-> _]]]; [inversion Hd | reflexivity].
  - cbn [Str.int_digits Spec.decimal_from].
    destruct (Str.digit_value c) as [d|] eqn:Hd.
    + assert (Hc : Spec.is_digit c = true)
        by (unfold Spec.is_digit; rewrite Hd; reflexivity).
      assert (Hnot : c <> "_"%char).
      { intros ->. vm_compute in Hd. discriminate. }
      rewrite IH, (digits_cons c s Hc). split.
      * intros [-> [Hs|[_ [Hs|Hs]]]]; (split; [reflexivity|left]); tauto.
      * intros [-> [Hs|[_ [Hs|(t & [= Hct _] & _)]]]];
          [| discriminate | contradiction].
        split; [reflexivity|].
        destruct Hs as [->|[Hs|Hs]]; tauto.
    + assert (Hc : Spec.is_digit c = false)
        by (unfold Spec.is_digit; rewrite Hd; reflexivity).
      destruct (Ascii.eqb c "_") eqn:Hu.
      * apply Ascii.eqb_eq in Hu. subst c.
        destruct after; cbn [andb].
        -- rewrite IH. split.
           ++ intros [-> [Hs|[[=] _]]]. split; [reflexivity|].
              right. split; [reflexivity|]. right. eauto.
           ++ intros [-> [Hs|[_ [[=]|(t & [= <-] & Ht)]]]].
              ** apply digits_first in Hs as (c' & rest' & [= <- _] & Hc').
                 congruence.
              ** auto.
        -- split; [discriminate|].
           intros [_ [Hs|[[=] _]]].
           apply digits_first in Hs as (c' & rest' & [= <- _] & Hc').
           congruence.
      * cbn [andb]. split; [discriminate|].
        intros [_ [Hs|[_ [[=]|(t & [= -> _] & _)]]]].
        -- apply digits_first in Hs as (c' & rest' & [= <- _] & Hc').
           congruence.
        -- rewrite Ascii.eqb_refl in Hu. discriminate.
Qed.

Section Stripping.
Variable sp : ascii -> bool.

Lemma lstrip_with_all s :
  Spec.all sp s = true -> Str.lstrip_with sp s = EmptyString.
Proof.
  induction s as [|c s IH]; simpl; [reflexivity|].
  intros [Hc Hs]%andb_prop. rewrite Hc. auto.
Qed.

Lemma lstrip_with_decomp s :
  exists l,
    s = l ++ Str.lstrip_with sp s
    /\ Spec.all sp l = true
    /\ forall c, Spec.first_char (Str.lstrip_with sp s) = Some c -> sp c = false.
Proof.
  induction s as [|c s (l & Hs & Hl & Hfirst)]; simpl.
  - exists EmptyString. repeat split. discriminate.
  - destruct (sp c) eqn:Hc.
    + exists (String c l). split; [|split].
      * change (String c l ++ Str.lstrip_with sp s)
          with (String c (l ++ Str.lstrip_with sp s)).
        f_equal. exact Hs.
      * simpl. rewrite Hc. exact Hl.
      * exact Hfirst.
    + exists EmptyString. repeat split. simpl. intros c' [= <-]. exact Hc.
Qed.

Lemma rstrip_with_last s :
  (forall c, Spec.last_char s = Some c -> sp c = false) ->
  Str.rstrip_with sp s = s.
Proof.
  induction s as [|c s IH]; [reflexivity|].
  intros Hlast. cbn [Str.rstrip_with]. destruct s as [|c' s].
  - simpl. rewrite (Hlast c eq_refl). reflexivity.
  - rewrite IH by exact Hlast. reflexivity.
Qed.

Lemma rstrip_with_decomp s :
  exists r,
    s = Str.rstrip_with sp s ++ r
    /\ Spec.all sp r = true
    /\ (forall c, Spec.last_char (Str.rstrip_with sp s) = Some c -> sp c = false)
    /\ (forall c, Spec.first_char s = Some c -> sp c = false ->
                  Spec.first_char (Str.rstrip_with sp s) = Some c).
Proof.
  induction s as [|c s (r & Hs & Hr & Hlast & _)].
  - exists EmptyString. repeat split; discriminate.
  - cbn [Str.rstrip_with].
    destruct (Str.rstrip_with sp s) as [|c' kept] eqn:Hkept.
    + destruct (sp c) eqn:Hc.
      * exists (String c r). change (EmptyString ++ r) with r in Hs.
        split; [rewrite Hs; reflexivity|]. split; [simpl; rewrite Hc; exact Hr|].
        split; [discriminate|]. intros c0 [= <-]. congruence.
      * exists r. split.
        { change (String c EmptyString ++ r) with (String c (EmptyString ++ r)).
          f_equal. exact Hs. }
        split; [exact Hr|]. split.
        -- intros c0 [= <-]. exact Hc.
        -- intros c0 [= <-] _. reflexivity.
    + exists r. split.
      { change (String c (String c' kept) ++ r)
          with (String c (String c' kept ++ r)).
        f_equal. exact Hs. }
      split; [exact Hr|]. split; [exact Hlast|].
      intros c0 [= <-] _. reflexivity.
Qed.

(** Stripping removes the white space around a core that has none at its
    ends, and nothing else. *)
Lemma strip_with_core l core r :
  Spec.all sp l = true -> Spec.all sp r = true ->
  (forall c, Spec.first_char core = Some c -> sp c = false) ->
  (forall c, Spec.last_char core = Some c -> sp c = false) ->
  Str.rstrip_with sp (Str.lstrip_with sp (l ++ core ++ r)) = core.
Proof.
  intros Hl Hr Hfirst Hlast. rewrite (lstrip_with_spaces _ _ _ Hl).
  destruct core as [|c core].
  - change (EmptyString ++ r) with r.
    rewrite (lstrip_with_all _ Hr). reflexivity.
  - assert (Hc : sp c = false) by (apply Hfirst; reflexivity).
    change (String c core ++ r) with (String c (core ++ r)).
    cbn [Str.lstrip_with]. rewrite Hc.
    change (String c (core ++ r)) with (String c core ++ r).
    rewrite (rstrip_with_app _ _ _ Hr). apply rstrip_with_last, Hlast.
Qed.

(** Every string is white space, a core without white space at its ends,
    and white space. *)
Lemma strip_with_decomp s :
  exists l r,
    s = l ++ Str.rstrip_with sp (Str.lstrip_with sp s) ++ r
    /\ Spec.all sp l = true /\ Spec.all sp r = true
    /\ (forall c,
           Spec.first_char (Str.rstrip_with sp (Str.lstrip_with sp s)) = Some c ->
           sp c = false)
    /\ (forall c,
           Spec.last_char (Str.rstrip_with sp (Str.lstrip_with sp s)) = Some c ->
           sp c = false).
Proof.
  destruct (lstrip_with_decomp s) as (l & Hs & Hl & Hfirst).
  destruct (rstrip_with_decomp (Str.lstrip_with sp s))
    as (r & Hs' & Hr & Hlast & Hkeep).
  exists l, r. split; [congruence|]. repeat split; try assumption.
  intros c Hc.
  destruct (Spec.first_char (Str.lstrip_with sp s)) as [c0|] eqn:Hc0.
  - pose proof (Hfirst c0 eq_refl) as Hsp.
    rewrite (Hkeep c0 eq_refl Hsp) in Hc. congruence.
  - destruct (Str.lstrip_with sp s); [|discriminate]. discriminate.
Qed.

End Stripping.

Lemma digits_edges u :
  Spec.digits u ->
  (exists c, Spec.first_char u = Some c /\ Spec.is_digit c = true)
  /\ (exists c, Spec.last_char u = Some c /\ Spec.is_digit c = true).
Proof.
  induction 1 as [c Hc|c rest Hc Hrest [_ (z & Hz & Hzd)]
                 |c rest Hc Hrest [_ (z & Hz & Hzd)]].
  - split; exists c; auto.
  - split; [exists c; auto|]. exists z. split; [|exact Hzd].
    destruct rest; [discriminate|exact Hz].
  - split; [exists c; auto|]. exists z. split; [|exact Hzd].
    destruct rest; [discriminate|exact Hz].
Qed.

(** The sign and the digits: what [int] accepts once the white space is
    off. *)
Lemma int_body_spec body n :
  match body with
  | String "-" digits => option_map Z.opp (Str.int_digits 0 false digits)
  | String "+" digits => Str.int_digits 0 false digits
  | _ => Str.int_digits 0 false body
  end = Some n
  <-> Spec.signed body n.
Proof.
  assert (Hunsigned : forall t m,
             Str.int_digits 0 false t = Some m <->
             Spec.digits t /\ m = Spec.decimal t).
  { intros t m. rewrite int_digits_spec. unfold Spec.decimal.
    split; [intros [-> [Ht|[[=] _]]]; auto | intros [Ht ->]; auto]. }
  unfold Spec.signed. destruct body as [|c t].
  - rewrite Hunsigned. split; [tauto|].
    intros [[Hd _]|[(u & [=] & _)|(u & [=] & _)]]. split; [exact Hd|].
    inversion Hd.
  - destruct (Ascii.eqb c "-") eqn:Hminus.
    { apply Ascii.eqb_eq in Hminus. subst c. split.
      - destruct (Str.int_digits 0 false t) as [m|] eqn:Hm; [|discriminate].
        intros [= <-]. apply Hunsigned in Hm as [Ht ->].
        right. right. exists t. auto.
      - intros [[Hd _]|[(u & [=] & _)|(u & [= <-] & Hu & ->)]].
        + apply digits_edges in Hd as [(c & [= <-] & Hc) _].
          vm_compute in Hc. discriminate.
        + rewrite (proj2 (Hunsigned t (Spec.decimal t)) (conj Hu eq_refl)).
          reflexivity. }
    destruct (Ascii.eqb c "+") eqn:Hplus.
    { apply Ascii.eqb_eq in Hplus. subst c. rewrite Hunsigned. split.
      - intros [Ht ->]. right. left. exists t. auto.
      - intros [[Hd _]|[(u & [= <-] & Hu & ->)|(u & [=] & _)]]; [|auto].
        apply digits_edges in Hd as [(c & [= <-] & Hc) _].
        vm_compute in Hc. discriminate. }
    assert (Hbody :
      match String c t with
      | String "-" digits => option_map Z.opp (Str.int_digits 0 false digits)
      | String "+" digits => Str.int_digits 0 false digits
      | _ => Str.int_digits 0 false (String c t)
      end = Str.int_digits 0 false (String c t)).
    { destruct c as [[] [] [] [] [] [] [] []]; try reflexivity; discriminate. }
    rewrite Hbody, Hunsigned. split; [tauto|].
    intros [Hd|[(u & [= -> _] & _)|(u & [= -> _] & _)]]; [exact Hd| |].
    + rewrite Ascii.eqb_refl in Hplus. discriminate.
    + rewrite Ascii.eqb_refl in Hminus. discriminate.
Qed.

Lemma signed_edges body n :
  Spec.signed body n ->
  (forall c, Spec.first_char body = Some c -> Str.int_isspace c = false)
  /\ (forall c, Spec.last_char body = Some c -> Str.int_isspace c = false).
Proof.
  assert (Hlast : forall u c,
             Spec.digits u -> Spec.last_char u = Some c ->
             Str.int_isspace c = false).
  { intros u c [_ (z & Hz & Hzd)]%digits_edges Hc.
    rewrite Hz in Hc. injection Hc as <-.
    apply digit_not_int_isspace, Hzd. }
  assert (Hsign : forall u c,
             Spec.digits u -> Spec.last_char (String c u) = Spec.last_char u).
  { intros u c (c' & rest & -> & _)%digits_first. reflexivity. }
  intros [[Hd _]|[(u & -> & Hu & _)|(u & -> & Hu & _)]].
  - split; [|intros c; apply Hlast, Hd].
    intros c Hc. apply digits_edges in Hd as [(z & Hz & Hzd) _].
    rewrite Hz in Hc. injection Hc as <-.
    apply digit_not_int_isspace, Hzd.
  - split; [intros c [= <-]; reflexivity|].
    intros c. rewrite (Hsign _ _ Hu). apply Hlast, Hu.
  - split; [intros c [= <-]; reflexivity|].
    intros c. rewrite (Hsign _ _ Hu). apply Hlast, Hu.
Qed.

(** [int] returns an integer exactly on the literals, and raises ValueError
    on every other string. *)
Lemma int_spec s n : Str.int s = Ok n <-> Spec.int_literal s n.
Proof.
  unfold Str.int, Spec.int_literal. split.
  - set (body := Str.rstrip_with _ _).
    destruct (strip_with_decomp Str.int_isspace s)
      as (l & r & Hs & Hl & Hr & _).
    fold body in Hs. intros Hparsed. exists l, body, r.
    repeat split; try assumption.
    apply int_body_spec.
    destruct (match body with EmptyString => _ | _ => _ end) as [m|];
      [congruence|discriminate].
  - intros (l & body & r & -> & Hl & Hr & Hbody).
    destruct (signed_edges _ _ Hbody) as [Hfirst Hlast].
    rewrite (strip_with_core _ _ _ _ Hl Hr Hfirst Hlast).
    apply int_body_spec in Hbody. rewrite Hbody. reflexivity.
Qed.

Lemma remove_char_without_commas s :
  Str.remove_char "," s = Spec.without_commas s.
Proof.
  unfold Spec.without_commas, Spec.is_comma.
  induction s as [|c s IH]; [reflexivity|].
  cbn [Str.remove_char list_ascii_of_string List.filter].
  destruct (Ascii.eqb c ","); cbn [negb]; [exact IH|].
  cbn [string_of_list_ascii]. rewrite IH. reflexivity.
Qed.

Lemma clean_votes_spec l core r n :
  Spec.all Str.isspace l = true ->
  Spec.all Str.isspace r = true ->
  Spec.trimmed core ->
  ContestTransformer.clean_votes (l ++ core ++ r) = Ok n
  <-> Spec.int_literal (Spec.without_commas core) n.
Proof.
  intros Hl Hr [Hfirst Hlast].
  unfold ContestTransformer.clean_votes, Str.strip.
  rewrite (strip_with_core _ _ _ _ Hl Hr Hfirst Hlast).
  rewrite remove_char_without_commas. apply int_spec.
Qed.

Lemma clean_votes_decomp value :
  exists l core r,
    value = l ++ core ++ r
    /\ Spec.all Str.isspace l = true
    /\ Spec.all Str.isspace r = true
    /\ Spec.trimmed core.
Proof.
  destruct (strip_with_decomp Str.isspace value)
    as (l & r & Hs & Hl & Hr & Hfirst & Hlast).
  exists l, (Str.strip value), r. unfold Spec.trimmed. auto.
Qed.

Lemma clean_votes_dichotomy value :
  (exists n, ContestTransformer.clean_votes value = Ok n)
  \/ ContestTransformer.clean_votes value = Raise ValueError.
Proof.
  destruct (ContestTransformer.clean_votes value) as [n|e] eqn:Hv.
  - left. exists n. reflexivity.
  - right. apply clean_votes_raises in Hv. subst e. reflexivity.
Qed.

(** C4 as the claim states it fails: a count with a leading minus is not a
    non-negative integer, yet parsing returns it instead of raising. *)
Lemma clean_votes_accepts_negative :
  ~ (forall value : string,
       (~ exists n, 0 <= n /\ ContestTransformer.clean_votes value = Ok n) ->
       ContestTransformer.clean_votes value = Raise ValueError)
  /\ ContestTransformer.clean_votes "-5" = Ok (-5).
Proof.
  split; [|reflexivity].
  intros Hclaim. specialize (Hclaim "-5").
  assert (Hparsed : ContestTransformer.clean_votes "-5" = Ok (-5))
    by reflexivity.
  rewrite Hparsed in Hclaim.
  assert (Hraise : @Ok Z (-5) = Raise ValueError); [|discriminate].
  apply Hclaim. intros (n & Hn & [= Heq]). lia.
Qed.

(** C4 (amended): vote-count parsing strips surrounding white space,
    removes the commas and parses the result as an integer, with the sign it
    carries. Written as white space, a core without white space at its ends
    and white space, a string parses to [n] exactly when its core without
    the commas is an integer literal denoting [n] (an optional sign, then
    decimal digits with single underscores allowed between two digits,
    white space allowed around), and every string is so written; a string
    whose core yields no integer ("abc", the empty string, a lone comma)
    raises ValueError, the only exception parsing raises. So "12,345"
    gives 12345, " 42 " gives 42 and "-5" gives -5. Both classes parse
    alike. *)
Theorem clean_votes_parses_integer :
  (forall l core r,
      Spec.all Str.isspace l = true ->
      Spec.all Str.isspace r = true ->
      Spec.trimmed core ->
      (forall n,
          ContestTransformer.clean_votes (l ++ core ++ r) = Ok n
          <-> Spec.int_literal (Spec.without_commas core) n)
      /\ ((~ exists n, Spec.int_literal (Spec.without_commas core) n) ->
          ContestTransformer.clean_votes (l ++ core ++ r) = Raise ValueError))
  /\ (forall value,
        exists l core r,
          value = l ++ core ++ r
          /\ Spec.all Str.isspace l = true
          /\ Spec.all Str.isspace r = true
          /\ Spec.trimmed core)
  /\ (forall value e,
        ContestTransformer.clean_votes value = Raise e -> e = ValueError)
  /\ (forall l body r,
        Spec.all Str.isspace l = true ->
        Spec.all Str.isspace r = true ->
        Spec.all (fun c => Spec.is_digit c || Spec.is_comma c) body = true ->
        Spec.some Spec.is_digit body = true ->
        ContestTransformer.clean_votes (l ++ body ++ r) = Ok (Spec.decimal body)
        /\ 0 <= Spec.decimal body)
  /\ (forall value,
        Spec.some Spec.foreign value = true ->
        ContestTransformer.clean_votes value = Raise ValueError)
  /\ (forall value,
        CandidateResultTransformer.clean_votes value
        = ContestTransformer.clean_votes value)
  /\ ContestTransformer.clean_votes "12,345" = Ok 12345
  /\ ContestTransformer.clean_votes " 42 " = Ok 42
  /\ ContestTransformer.clean_votes "abc" = Raise ValueError
  /\ ContestTransformer.clean_votes "-5" = Ok (-5)
  /\ ContestTransformer.clean_votes "+7" = Ok 7
  /\ ContestTransformer.clean_votes EmptyString = Raise ValueError
  /\ ContestTransformer.clean_votes "   " = Raise ValueError
  /\ ContestTransformer.clean_votes "," = Raise ValueError.
Proof.
  split; [|split; [|split; [|split; [|split]]]].
  - intros l core r Hl Hr Hcore. split.
    + intros n. apply clean_votes_spec; assumption.
    + intros Hnone.
      destruct (clean_votes_dichotomy (l ++ core ++ r)) as [(n & Hn)|Hraise];
        [|exact Hraise].
      destruct Hnone. exists n.
      apply (clean_votes_spec l core r n Hl Hr Hcore), Hn.
  - apply clean_votes_decomp.
  - apply clean_votes_raises.
  - intros l body r Hl Hr Hbody Hdigit. split.
    + apply clean_votes_of_digits; assumption.
    + apply decimal_from_nonneg. lia.
  - apply clean_votes_of_foreign.
  - repeat split; reflexivity.
Qed.

Lemma clean_votes_parses_integer_witness :
  Spec.int_literal (Spec.without_commas "-1,234") (-1234)
  /\ ContestTransformer.clean_votes " , " = Raise ValueError
  /\ ContestTransformer.clean_votes "  1,234,567 " = Ok 1234567
  /\ ContestTransformer.clean_votes "12a" = Raise ValueError.
Proof.
  destruct clean_votes_parses_integer
    as (Hcore & _ & _ & Hdigits & Hforeign & _).
  assert (Htrim : forall c : ascii,
             Str.isspace c = false ->
             Spec.trimmed (String c EmptyString)).
  { intros c Hc. split; intros c' [= <-]; exact Hc. }
  split; [|split; [|split]].
  - apply (proj1 (Hcore " " "-1,234" EmptyString eq_refl eq_refl
                    ltac:(split; intros c [= <-]; reflexivity))
             (-1234)).
    reflexivity.
  - apply (proj2 (Hcore " " "," " " eq_refl eq_refl
                    (Htrim ","%char eq_refl))).
    intros (n & Hn).
    apply (proj1 (Hcore EmptyString "," EmptyString eq_refl eq_refl
                    (Htrim ","%char eq_refl)) n) in Hn.
    discriminate Hn.
  - apply (Hdigits "  " "1,234,567" " "); reflexivity.
  - apply (Hforeign "12a"). reflexivity.
Defined.

(** ** Sequencing *)

Lemma bind_Ok {A B} (r : result A) (k : A -> result B) b :
  r ≫= k = Ok b <-> exists a, r = Ok a /\ k a = Ok b.
Proof.
  destruct r as [a|e]; simpl; split.
  - intros Hk. exists a. auto.
  - intros (a' & [= <-] & Hk). exact Hk.
  - discriminate.
  - intros (a' & [=] & _).
Qed.

(** Take a successful sequence of steps apart, one step at a time. *)
Ltac bind_inv H :=
  repeat match type of H with
    | _ ≫= _ = Ok _ =>
        let a := fresh "a" in
        let Ha := fresh "Ha" in
        apply bind_Ok in H as (a & Ha & H)
    end.

Lemma for_each_Ok {A B} (f : A -> result B) l l' :
  for_each f l = Ok l' <-> Forall2 (fun x y => f x = Ok y) l l'.
Proof.
  revert l'. induction l as [|x l IH]; intros l'; simpl.
  - split.
    + intros [= <-]. constructor.
    + intros Hl. inversion Hl. reflexivity.
  - split.
    + intros Hl. bind_inv Hl. injection Hl as <-.
      constructor; [assumption|]. apply IH. assumption.
    + intros Hl. inversion Hl as [|? y ? ys Hx Hrest]; subst.
      rewrite Hx. simpl. apply IH in Hrest. rewrite Hrest. reflexivity.
Qed.

Lemma for_each_length {A B} (f : A -> result B) l l' :
  for_each f l = Ok l' -> length l' = length l.
Proof.
  intros Hl%for_each_Ok. symmetry. eapply Forall2_length, Hl.
Qed.

Lemma for_each_total {A B} (f : A -> result B) l :
  Forall (fun x => exists y, f x = Ok y) l -> exists l', for_each f l = Ok l'.
Proof.
  induction 1 as [|x l (y & Hy) _ (l' & Hl')]; simpl.
  - eexists. reflexivity.
  - rewrite Hy; simpl. rewrite Hl'; simpl. eexists. reflexivity.
Qed.

(** ** Incumbents *)

Lemma correct_incumbent_without self candidate_list :
  match ContestTransformer._get_correction self with
  | None => True
  | Some correction =>
      ContestTransformer.or_None (Correction.incumbent correction) = None
  end ->
  ContestTransformer.correct_incumbent self candidate_list = Ok candidate_list.
Proof.
  unfold ContestTransformer.correct_incumbent.
  destruct (ContestTransformer._get_correction self) as [correction|];
    [|reflexivity].
  intros ->. reflexivity.
Qed.

Lemma correct_incumbent_with self correction incumbents candidate_list marked :
  ContestTransformer._get_correction self = Some correction ->
  ContestTransformer.or_None (Correction.incumbent correction) = Some incumbents ->
  ContestTransformer.correct_incumbent self candidate_list = Ok marked ->
  Forall2
    (fun c c' =>
       exists name,
         RawCandidate.Name c = Some name
         /\ c' = RawCandidate.set_incumbent (Str.contains name incumbents) c)
    candidate_list marked.
Proof.
  unfold ContestTransformer.correct_incumbent. intros -> -> Hm.
  apply for_each_Ok in Hm. eapply Forall2_impl; [exact Hm|].
  intros c c' Hc. simpl in Hc. bind_inv Hc. injection Hc as <-.
  exists a. split; [|reflexivity].
  destruct (RawCandidate.Name c); [|discriminate].
  injection Ha as ->. reflexivity.
Qed.

Lemma or_None_Some value s :
  ContestTransformer.or_None value = Some s <-> value = Some s /\ s <> EmptyString.
Proof.
  unfold ContestTransformer.or_None. destruct value as [[|c t]|]; simpl.
  - split; [discriminate|]. intros [[= <-] Hs]. contradiction.
  - split.
    + intros [= <-]. split; [reflexivity|discriminate].
    + intros [[= <-] _]. reflexivity.
  - split; [discriminate|]. intros [[=] _].
Qed.

(** Marking touches the incumbent field alone, and keeps the order. *)
Lemma correct_incumbent_frame self candidate_list marked :
  ContestTransformer.correct_incumbent self candidate_list = Ok marked ->
  Forall2
    (fun c c' =>
       RawCandidate.Name c' = RawCandidate.Name c
       /\ RawCandidate.Party c' = RawCandidate.Party c
       /\ RawCandidate.Votes c' = RawCandidate.Votes c
       /\ RawCandidate.votes_percent c' = RawCandidate.votes_percent c)
    candidate_list marked.
Proof.
  intros Hm.
  destruct (ContestTransformer._get_correction self) as [correction|] eqn:Hc.
  - destruct (ContestTransformer.or_None (Correction.incumbent correction))
      as [incumbents|] eqn:Hi.
    + eapply Forall2_impl; [eapply correct_incumbent_with; eassumption|].
      intros c c' (name & _ & ->). auto.
    + rewrite correct_incumbent_without in Hm by (rewrite Hc; exact Hi).
      injection Hm as <-. apply Forall2_same_length_lookup_2; [reflexivity|].
      intros i x y Hx Hy. rewrite Hx in Hy. injection Hy as <-. auto.
  - rewrite correct_incumbent_without in Hm by (rewrite Hc; exact I).
    injection Hm as <-. apply Forall2_same_length_lookup_2; [reflexivity|].
    intros i x y Hx Hy. rewrite Hx in Hy. injection Hy as <-. auto.
Qed.

(** C5 as the claim states it fails: a candidate whose name is not in the
    incumbent value does not keep its incumbent field; an absent field
    becomes false, and so does one that was true. *)
Lemma correct_incumbent_overwrites_others :
  ContestTransformer.correct_incumbent Sample.mayor_obj
    [Sample.alice; Sample.bob; Sample.carol]
  = Ok [RawCandidate.set_incumbent true Sample.alice;
        RawCandidate.set_incumbent false Sample.bob;
        RawCandidate.set_incumbent false Sample.carol]
  /\ Str.contains "Bob" "Alice" = false
  /\ RawCandidate.incumbent Sample.bob = None
  /\ RawCandidate.incumbent (RawCandidate.set_incumbent false Sample.bob)
     <> RawCandidate.incumbent Sample.bob
  /\ RawCandidate.incumbent Sample.carol = Some true
  /\ RawCandidate.incumbent (RawCandidate.set_incumbent false Sample.carol)
     <> RawCandidate.incumbent Sample.carol.
Proof. vm_compute. repeat split; discriminate. Qed.

(** C5 (amended): when a correction row exists for a contest and gives a
    non-empty incumbent value, marking sets the incumbent field of every
    candidate of the contest, to true where the candidate's name is a
    substring of that value and to false everywhere else, whatever the field
    held before; it succeeds when every candidate has a name, and name,
    party, votes and share stay as they were. With no correction row, or
    with an empty incumbent value, the candidates come back unchanged. *)
Theorem correct_incumbent_sets_every_candidate self candidate_list :
  (forall correction incumbents,
      ContestTransformer._get_correction self = Some correction ->
      Correction.incumbent correction = Some incumbents ->
      incumbents <> EmptyString ->
      (forall marked,
          ContestTransformer.correct_incumbent self candidate_list = Ok marked ->
          Forall2
            (fun c c' =>
               exists name,
                 RawCandidate.Name c = Some name
                 /\ RawCandidate.incumbent c'
                    = Some (Str.contains name incumbents)
                 /\ RawCandidate.Name c' = RawCandidate.Name c
                 /\ RawCandidate.Party c' = RawCandidate.Party c
                 /\ RawCandidate.Votes c' = RawCandidate.Votes c
                 /\ RawCandidate.votes_percent c' = RawCandidate.votes_percent c)
            candidate_list marked)
      /\ (Forall (fun c => RawCandidate.Name c <> None) candidate_list ->
          exists marked,
            ContestTransformer.correct_incumbent self candidate_list = Ok marked))
  /\ (ContestTransformer._get_correction self = None ->
      ContestTransformer.correct_incumbent self candidate_list = Ok candidate_list)
  /\ (forall correction,
        ContestTransformer._get_correction self = Some correction ->
        Correction.incumbent correction = None
        \/ Correction.incumbent correction = Some EmptyString ->
        ContestTransformer.correct_incumbent self candidate_list = Ok candidate_list).
Proof.
  split; [|split].
  - intros correction incumbents Hc Hi Hne.
    assert (Hor : ContestTransformer.or_None (Correction.incumbent correction)
                  = Some incumbents) by (apply or_None_Some; auto).
    split.
    + intros marked Hm.
      eapply Forall2_impl; [eapply correct_incumbent_with; eassumption|].
      intros c c' (name & Hname & ->). exists name.
      repeat split; auto.
    + intros Hnames. unfold ContestTransformer.correct_incumbent.
      rewrite Hc, Hor. apply for_each_total.
      eapply Forall_impl; [exact Hnames|]. intros c Hn. simpl in Hn.
      destruct (RawCandidate.Name c) as [name|]; [|contradiction].
      eexists. reflexivity.
  - intros Hc. apply correct_incumbent_without. rewrite Hc. exact I.
  - intros correction Hc Hi. apply correct_incumbent_without. rewrite Hc.
    destruct Hi as [-> | ->]; reflexivity.
Qed.

Lemma correct_incumbent_sets_every_candidate_witness :
  (exists marked,
      ContestTransformer.correct_incumbent Sample.mayor_obj
        [Sample.alice; Sample.bob] = Ok marked)
  /\ ContestTransformer.correct_incumbent Sample.clerk_obj
       [Sample.alice; Sample.bob] = Ok [Sample.alice; Sample.bob].
Proof.
  split.
  - refine (proj2 (proj1 (correct_incumbent_sets_every_candidate
                            Sample.mayor_obj [Sample.alice; Sample.bob])
                     (Correction.mk "Mayor" (Some "Yes")
                        (Some "Mayor of Springfield") (Some EmptyString)
                        (Some "Springfield") (Some "Alice"))
                     "Alice" _ _ _) _).
    + vm_compute. reflexivity.
    + reflexivity.
    + discriminate.
    + repeat constructor; discriminate.
  - apply (proj1 (proj2 (correct_incumbent_sets_every_candidate
                           Sample.clerk_obj [Sample.alice; Sample.bob]))).
    vm_compute. reflexivity.
Defined.

(** ** The transformation of one contest *)

Lemma getitem_Ok {A} key (field : option A) v :
  getitem key field = Ok v <-> field = Some v.
Proof.
  destruct field; simpl; split; intros [=]; subst; reflexivity.
Qed.

Lemma dump_Ok {A} (schema : A -> bool) (r : result A) data :
  BaseTransformer.dump schema r = Ok data <-> r = Ok data /\ schema data = true.
Proof.
  unfold BaseTransformer.dump. destruct r as [a|e]; simpl.
  - destruct (schema a) eqn:Hs; split.
    + intros [= <-]. auto.
    + intros [[= <-] _]. reflexivity.
    + discriminate.
    + intros [[= <-] Hd]. congruence.
  - split; [discriminate|]. intros [[=] _].
Qed.

Section OneContest.
Context `{Collaborators}.

(** The stages a successful [transform_data] went through. *)
Lemma transform_data_stages self data :
  ContestTransformer.transform_data self = Ok data ->
  exists title reporting raw_candidates marked parsed shared,
    RawContest.raceTitle (ContestTransformer.raw self) = Some title
    /\ ContestTransformer.correct_name self = Ok (Contest.name data)
    /\ Contest.slug data = slugify title
    /\ Contest.description data = ContestTransformer.correct_description self
    /\ Contest.geography data = ContestTransformer.correct_geography self
    /\ RawContest.Reporting (ContestTransformer.raw self) = Some reporting
    /\ Contest.precincts_reporting data = reporting
    /\ RawContest.candidates (ContestTransformer.raw self) = Some raw_candidates
    /\ ContestTransformer.correct_incumbent self raw_candidates = Ok marked
    /\ for_each ContestTransformer.parse_votes marked = Ok parsed
    /\ for_each
         (ContestTransformer.set_votes_percent (ContestTransformer.sum parsed))
         marked = Ok shared
    /\ for_each CandidateResultTransformer.dump shared
       = Ok (Contest.candidates data).
Proof.
  unfold ContestTransformer.transform_data. intros Ht. bind_inv Ht.
  injection Ht as <-. simpl.
  apply getitem_Ok in Ha0, Ha1, Ha2.
  exists a0, a1, a2, a3, a4, a5. repeat split; assumption.
Qed.

(** What the three passes over the candidates do to one candidate. *)
Lemma parse_votes_Ok c n :
  ContestTransformer.parse_votes c = Ok n <->
  exists value,
    RawCandidate.Votes c = Some value
    /\ ContestTransformer.clean_votes value = Ok n.
Proof.
  unfold ContestTransformer.parse_votes. rewrite bind_Ok.
  split; intros (value & Hv & Hn); exists value;
    (split; [apply getitem_Ok in Hv || apply getitem_Ok; exact Hv | exact Hn]).
Qed.

Lemma set_votes_percent_Ok vote_total c c' :
  ContestTransformer.set_votes_percent vote_total c = Ok c' ->
  exists x,
    c' = RawCandidate.set_votes_percent x c
    /\ (0 < vote_total ->
        exists votes share,
          ContestTransformer.parse_votes c = Ok votes
          /\ Float.true_div votes vote_total = Ok share
          /\ x = Float.round4 share)
    /\ (vote_total <= 0 -> x = Float.zero).
Proof.
  unfold ContestTransformer.set_votes_percent.
  destruct (0 <? vote_total) eqn:Hpos.
  - apply Z.ltb_lt in Hpos. intros Hc. bind_inv Hc. injection Hc as <-.
    eexists. split; [reflexivity|]. split; [|lia].
    intros _. exists a, a0. auto.
  - apply Z.ltb_ge in Hpos. intros [= <-].
    eexists. split; [reflexivity|]. split; [lia|reflexivity].
Qed.

Lemma candidate_dump_Ok c r :
  CandidateResultTransformer.dump c = Ok r ->
  RawCandidate.Name c = Some (CandidateResult.name r)
  /\ CandidateResult.party r = RawCandidate.Party c
  /\ ContestTransformer.parse_votes c = Ok (CandidateResult.votes r)
  /\ RawCandidate.votes_percent c = Some (CandidateResult.votes_percent r)
  /\ CandidateResult.incumbent r = RawCandidate.incumbent c
  /\ CandidateResult_schema r = true.
Proof.
  unfold CandidateResultTransformer.dump. intros [Ht Hs]%dump_Ok.
  unfold CandidateResultTransformer.transform_data in Ht. bind_inv Ht.
  injection Ht as <-. simpl. apply getitem_Ok in Ha, Ha0, Ha2.
  repeat split; try assumption.
  apply parse_votes_Ok. exists a0. auto.
Qed.

End OneContest.

Lemma Forall2_compose {A B C} (P : A -> B -> Prop) (Q : B -> C -> Prop) l k m :
  Forall2 P l k -> Forall2 Q k m ->
  Forall2 (fun x z => exists y, P x y /\ Q y z) l m.
Proof.
  intros Hlk. revert m. induction Hlk as [|x y l k Hxy _ IH]; intros m Hkm.
  - inversion Hkm. constructor.
  - inversion Hkm as [|? z ? m' Hyz Hrest]; subst.
    constructor; [exists y; auto | apply IH, Hrest].
Qed.

Lemma Forall2_functional {A B} (f : A -> result B) l k k' :
  Forall2 (fun x y => f x = Ok y) l k ->
  Forall2 (fun x y => f x = Ok y) l k' -> k = k'.
Proof.
  intros Hk. revert k'. induction Hk as [|x y l k Hxy _ IH]; intros k' Hk'.
  - inversion Hk'. reflexivity.
  - inversion Hk' as [|? y' ? k'' Hxy' Hrest]; subst.
    rewrite Hxy in Hxy'. injection Hxy' as <-. f_equal. apply IH, Hrest.
Qed.

Lemma Forall2_right {A B} (P : A -> B -> Prop) (Q : B -> Prop) l k :
  (forall x y, P x y -> Q y) -> Forall2 P l k -> Forall Q k.
Proof.
  intros HPQ Hlk. induction Hlk as [|x y l k Hxy _ IH]; constructor;
    [eapply HPQ, Hxy | exact IH].
Qed.

Lemma Forall2_map_right {A B C} (P : A -> B -> Prop) (f : A -> C) (g : B -> C) l k :
  (forall x y, P x y -> g y = f x) -> Forall2 P l k -> map g k = map f l.
Proof.
  intros Hfg Hlk. induction Hlk as [|x y l k Hxy _ IH]; simpl;
    [reflexivity|]. rewrite (Hfg _ _ Hxy), IH. reflexivity.
Qed.

Section OneContestCandidates.
Context `{Collaborators}.

(** Each transformed candidate comes from the raw candidate at the same
    position. *)
Lemma transform_data_candidates self data :
  ContestTransformer.transform_data self = Ok data ->
  exists raw_candidates,
    RawContest.candidates (ContestTransformer.raw self) = Some raw_candidates
    /\ Forall2
         (fun c r =>
            RawCandidate.Name c = Some (CandidateResult.name r)
            /\ CandidateResult.party r = RawCandidate.Party c
            /\ ContestTransformer.parse_votes c = Ok (CandidateResult.votes r)
            /\ Spec.share_of
                 (ContestTransformer.sum
                    (map CandidateResult.votes (Contest.candidates data)))
                 (CandidateResult.votes r) (CandidateResult.votes_percent r))
         raw_candidates (Contest.candidates data).
Proof.
  intros Ht. apply transform_data_stages in Ht
    as (title & reporting & raw_candidates & marked & parsed & shared
        & _ & _ & _ & _ & _ & _ & _ & Hraw & Hmark & Hparsed & Hshare & Hdump).
  exists raw_candidates. split; [exact Hraw|].
  apply correct_incumbent_frame in Hmark.
  apply for_each_Ok in Hshare, Hdump.
  pose proof (Forall2_compose _ _ _ _ _ Hshare Hdump) as Hout.
  (* the votes summed are the votes of the transformed candidates *)
  assert (Hvotes : parsed = map CandidateResult.votes (Contest.candidates data)).
  { apply for_each_Ok in Hparsed.
    apply (Forall2_functional _ _ _ _ Hparsed).
    clear -Hout. induction Hout as [|c r l k (c' & Hc & Hr) _ IH];
      simpl; constructor; [|exact IH].
    apply set_votes_percent_Ok in Hc as (x & -> & _).
    apply candidate_dump_Ok in Hr as (_ & _ & Hv & _). exact Hv. }
  rewrite <- Hvotes.
  pose proof (Forall2_compose _ _ _ _ _ Hmark Hout) as Hall.
  eapply Forall2_impl; [exact Hall|].
  intros c r (m & (Hn & Hp & Hv & _) & c' & Hc & Hr). simpl in *.
  apply set_votes_percent_Ok in Hc as (x & -> & Hpos & Hzero).
  apply candidate_dump_Ok in Hr as (Hname & Hparty & Hvotes' & Hpct & _).
  simpl in *. injection Hpct as <-.
  assert (Hm : ContestTransformer.parse_votes m
               = Ok (CandidateResult.votes r)) by exact Hvotes'.
  repeat split.
  - congruence.
  - congruence.
  - unfold ContestTransformer.parse_votes in *. rewrite <- Hv. exact Hm.
  - intros Hgt. destruct (Hpos Hgt) as (votes & share & Hpv & Hdiv & ->).
    exists share. split; [|reflexivity].
    rewrite Hm in Hpv. injection Hpv as <-. exact Hdiv.
  - exact Hzero.
Qed.

End OneContestCandidates.

Section ContestClaims.
Context `{Collaborators}.

(** C1: in a transformed contest the votes of each candidate are the
    parsed vote count of the raw candidate at its position; when their
    total is above 0 each share is round(votes / total, 4), and when the
    total is 0 each share is exactly 0.0. *)
Theorem votes_percent_is_rounded_share self data :
  ContestTransformer.transform_data self = Ok data ->
  let vote_total :=
    ContestTransformer.sum
      (map CandidateResult.votes (Contest.candidates data)) in
  (exists raw_candidates,
      RawContest.candidates (ContestTransformer.raw self) = Some raw_candidates
      /\ for_each ContestTransformer.parse_votes raw_candidates
         = Ok (map CandidateResult.votes (Contest.candidates data)))
  /\ Forall
       (fun r =>
          (0 < vote_total ->
           exists share,
             Float.true_div (CandidateResult.votes r) vote_total = Ok share
             /\ CandidateResult.votes_percent r = Float.round4 share)
          /\ (vote_total = 0 -> CandidateResult.votes_percent r = 0%Q))
       (Contest.candidates data).
Proof.
  intros Ht vote_total.
  destruct (transform_data_candidates _ _ Ht) as (raw_candidates & Hraw & Hall).
  fold vote_total in Hall. clearbody vote_total. split.
  - exists raw_candidates. split; [exact Hraw|]. apply for_each_Ok.
    apply Forall2_fmap_r. eapply Forall2_impl; [exact Hall|].
    intros c r (_ & _ & Hv & _). exact Hv.
  - eapply Forall2_right; [|exact Hall].
    intros c r (_ & _ & _ & Hpos & Hzero).
    split; [exact Hpos|]. intros Hz. apply Hzero. lia.
Qed.

(** C3: the slug of a transformed contest is the slug of the raw title,
    whatever the corrections say; its name is the clean name of the
    correction row for the raw title when that row has a non-empty one,
    and the raw title itself when there is no row or the clean name is
    empty. *)
Theorem name_is_corrected_slug_is_raw self data :
  ContestTransformer.transform_data self = Ok data ->
  exists title,
    RawContest.raceTitle (ContestTransformer.raw self) = Some title
    /\ Contest.slug data = slugify title
    /\ (forall row clean,
           ContestTransformer.corrections self !! title = Some row ->
           Correction.clean_name row = Some clean ->
           clean <> EmptyString ->
           Contest.name data = clean)
    /\ (ContestTransformer.corrections self !! title = None ->
        Contest.name data = title)
    /\ (forall row,
           ContestTransformer.corrections self !! title = Some row ->
           Correction.clean_name row = Some EmptyString
           \/ Correction.clean_name row = None ->
           Contest.name data = title).
Proof.
  intros Ht. apply transform_data_stages in Ht
    as (title & reporting & raw_candidates & marked & parsed & shared
        & Htitle & Hname & Hslug & _).
  exists title. split; [exact Htitle|]. split; [exact Hslug|].
  unfold ContestTransformer.correct_name, ContestTransformer._get_correction
    in Hname.
  rewrite Htitle in Hname. simpl in Hname.
  repeat split.
  - intros row clean Hrow Hclean Hne. rewrite Hrow, Hclean in Hname.
    destruct clean; [contradiction|]. simpl in Hname. congruence.
  - intros Hrow. rewrite Hrow in Hname. congruence.
  - intros row Hrow [Hclean|Hclean]; rewrite Hrow, Hclean in Hname;
      simpl in Hname; congruence.
Qed.

(** C10: the candidates of a transformed contest are as many as the raw
    contest's and stand in the same order: the candidate at each position
    has the name, the party and the parsed votes of the raw candidate at
    that position. *)
Theorem candidates_keep_length_and_order self data :
  ContestTransformer.transform_data self = Ok data ->
  exists raw_candidates,
    RawContest.candidates (ContestTransformer.raw self) = Some raw_candidates
    /\ length (Contest.candidates data) = length raw_candidates
    /\ map (fun r => Some (CandidateResult.name r)) (Contest.candidates data)
       = map RawCandidate.Name raw_candidates
    /\ Forall2
         (fun c r =>
            RawCandidate.Name c = Some (CandidateResult.name r)
            /\ CandidateResult.party r = RawCandidate.Party c
            /\ ContestTransformer.parse_votes c = Ok (CandidateResult.votes r))
         raw_candidates (Contest.candidates data).
Proof.
  intros Ht.
  destruct (transform_data_candidates _ _ Ht) as (raw_candidates & Hraw & Hall).
  exists raw_candidates. split; [exact Hraw|].
  split; [symmetry; eapply Forall2_length, Hall|].
  split.
  - eapply Forall2_map_right; [|exact Hall].
    intros c r (Hn & _). symmetry. exact Hn.
  - eapply Forall2_impl; [exact Hall|]. intros c r (Hn & Hp & Hv & _). auto.
Qed.

End ContestClaims.

Lemma votes_percent_is_rounded_share_witness :
  ContestTransformer.transform_data (H := Sample.collaborators)
    Sample.mayor_obj = Ok Sample.mayor_data
  /\ Forall
       (fun r =>
          (0 < 1500 ->
           exists share,
             Float.true_div (CandidateResult.votes r) 1500 = Ok share
             /\ CandidateResult.votes_percent r = Float.round4 share)
          /\ (1500 = 0 -> CandidateResult.votes_percent r = 0%Q))
       (Contest.candidates Sample.mayor_data).
Proof.
  assert (Hrun : ContestTransformer.transform_data (H := Sample.collaborators)
                   Sample.mayor_obj = Ok Sample.mayor_data)
    by (vm_compute; reflexivity).
  split; [exact Hrun|].
  exact (proj2 (votes_percent_is_rounded_share
                  (H := Sample.collaborators) Sample.mayor_obj
                  Sample.mayor_data Hrun)).
Defined.

Lemma name_is_corrected_slug_is_raw_witness :
  ContestTransformer.transform_data (H := Sample.collaborators)
    Sample.mayor_obj = Ok Sample.mayor_data
  /\ Contest.slug Sample.mayor_data
     = slugify (Collaborators := Sample.collaborators) "Mayor"
  /\ Contest.name Sample.mayor_data = "Mayor of Springfield".
Proof.
  assert (Hrun : ContestTransformer.transform_data (H := Sample.collaborators)
                   Sample.mayor_obj = Ok Sample.mayor_data)
    by (vm_compute; reflexivity).
  split; [exact Hrun|].
  destruct (name_is_corrected_slug_is_raw (H := Sample.collaborators)
              Sample.mayor_obj Sample.mayor_data Hrun)
    as (title & Htitle & Hslug & Hclean & _).
  injection Htitle as <-. split; [exact Hslug|].
  eapply Hclean; [vm_compute; reflexivity | reflexivity | discriminate].
Defined.

Lemma candidates_keep_length_and_order_witness :
  ContestTransformer.transform_data (H := Sample.collaborators)
    Sample.mayor_obj = Ok Sample.mayor_data
  /\ map (fun r => Some (CandidateResult.name r))
       (Contest.candidates Sample.mayor_data)
     = map RawCandidate.Name [Sample.alice; Sample.bob; Sample.carol].
Proof.
  assert (Hrun : ContestTransformer.transform_data (H := Sample.collaborators)
                   Sample.mayor_obj = Ok Sample.mayor_data)
    by (vm_compute; reflexivity).
  split; [exact Hrun|].
  destruct (candidates_keep_length_and_order (H := Sample.collaborators)
              Sample.mayor_obj Sample.mayor_data Hrun)
    as (raw_candidates & Hraw & _ & Hnames & _).
  injection Hraw as <-. exact Hnames.
Defined.

(** ** Flattening *)

(** C7: a raw document without a [races] key in the supreme-court category
    gives, for each entry of its "supreme-court" list in order, one contest
    titled "Retain Supreme Court Justice " followed by the entry's name,
    with the two candidates Yes and No carrying the entry's yesVotes and
    noVotes and with the document's Reporting; flattening succeeds when the
    fields are there. A document with a [races] key gives that list,
    whatever its category. *)
Theorem flatten_file_supreme_court :
  (forall slug raw_data races,
      RawDocument.races raw_data = Some races ->
      cli.flatten_file slug raw_data = Ok races)
  /\ (forall raw_data entries contests,
         RawDocument.races raw_data = None ->
         RawDocument.supreme_court raw_data = Some entries ->
         cli.flatten_file "supreme-court" raw_data = Ok contests ->
         Forall2
           (fun race contest =>
              exists name yes no reporting,
                Retention.Name race = Some name
                /\ Retention.yesVotes race = Some yes
                /\ Retention.noVotes race = Some no
                /\ RawDocument.Reporting raw_data = Some reporting
                /\ contest
                   = RawContest.mk
                       (Some ("Retain Supreme Court Justice " ++ name))
                       (Some reporting)
                       (Some [RawCandidate.mk (Some "Yes") None (Some yes)
                                None None;
                              RawCandidate.mk (Some "No") None (Some no)
                                None None]))
           entries contests)
  /\ (forall raw_data entries reporting,
         RawDocument.races raw_data = None ->
         RawDocument.supreme_court raw_data = Some entries ->
         RawDocument.Reporting raw_data = Some reporting ->
         Forall
           (fun race =>
              Retention.Name race <> None
              /\ Retention.yesVotes race <> None
              /\ Retention.noVotes race <> None)
           entries ->
         exists contests,
           cli.flatten_file "supreme-court" raw_data = Ok contests
           /\ length contests = length entries).
Proof.
  split; [|split].
  - intros slug raw_data races Hraces. unfold cli.flatten_file.
    rewrite Hraces. reflexivity.
  - intros raw_data entries contests Hraces Hentries Hflat.
    unfold cli.flatten_file in Hflat. rewrite Hraces, Hentries in Hflat.
    simpl in Hflat. apply for_each_Ok in Hflat.
    eapply Forall2_impl; [exact Hflat|].
    intros race contest Hrace. simpl in Hrace. bind_inv Hrace.
    injection Hrace as <-. apply getitem_Ok in Ha, Ha0, Ha1, Ha2.
    exists a, a1, a2, a0. auto.
  - intros raw_data entries reporting Hraces Hentries Hreporting Hfields.
    unfold cli.flatten_file. rewrite Hraces, Hentries, Hreporting. simpl.
    match goal with |- exists _, for_each ?f _ = _ /\ _ =>
      destruct (for_each_total f entries) as (contests & Hc) end.
    + eapply Forall_impl; [exact Hfields|].
      intros race (Hn & Hy & Hno). simpl in *.
      destruct (Retention.Name race); [|contradiction].
      destruct (Retention.yesVotes race); [|contradiction].
      destruct (Retention.noVotes race); [|contradiction].
      eexists. reflexivity.
    + exists contests. split; [exact Hc|]. eapply for_each_length, Hc.
Qed.

Lemma flatten_file_supreme_court_witness :
  (exists contests,
      cli.flatten_file "supreme-court" Sample.supreme_court = Ok contests
      /\ length contests = 1%nat)
  /\ cli.flatten_file "supreme-court" Sample.race_list
     = Ok [Sample.mayor; Sample.dog_catcher; Sample.clerk].
Proof.
  destruct flatten_file_supreme_court as (Hraces & _ & Hcourt). split.
  - apply (Hcourt Sample.supreme_court
             [Retention.mk (Some "Smith") (Some "100") (Some "50")] "80%");
      try reflexivity.
    repeat constructor; discriminate.
  - apply Hraces. reflexivity.
Defined.

(** ** The driver *)

Section DriverClaims.
Context `{Collaborators}.

(** The decision of [include], when it returns, is the one the
    specification words. *)
Lemma include_is_included corrections contest keep :
  ContestTransformer.include (ContestTransformer.mk contest corrections)
  = Ok keep ->
  keep = Spec.included corrections contest.
Proof.
  unfold ContestTransformer.include, ContestTransformer._get_correction,
    Spec.included. simpl.
  destruct (RawContest.raceTitle contest) as [title|]; [|congruence].
  destruct (corrections !! title) as [row|]; [|congruence].
  destruct (Correction.include row); [congruence|discriminate].
Qed.

(** C2: when the loop over the contests returns, every contest was kept or
    dropped as the specification words it (kept when there is no correction
    row for its raw title or the row's include flag, lower-cased, is yes;
    dropped on any other flag), and the races are the records of exactly
    the kept contests, in their order. *)
Theorem races_are_the_included_contests corrections contest_list races :
  cli.transform_contests corrections contest_list = Ok races ->
  Forall
    (fun contest =>
       ContestTransformer.include (ContestTransformer.mk contest corrections)
       = Ok (Spec.included corrections contest))
    contest_list
  /\ for_each
       (fun contest =>
          ContestTransformer.dump (ContestTransformer.mk contest corrections))
       (List.filter (Spec.included corrections) contest_list)
     = Ok races.
Proof.
  revert races. induction contest_list as [|contest rest IH]; intros races.
  - intros [= <-]. split; [constructor|reflexivity].
  - simpl. intros Hloop. apply bind_Ok in Hloop as (keep & Hkeep & Hloop).
    pose proof (include_is_included _ _ _ Hkeep) as ->.
    destruct (Spec.included corrections contest) eqn:Hinc.
    + bind_inv Hloop. injection Hloop as <-.
      destruct (IH _ Ha0) as (Hall & Hrest). split.
      * constructor; [rewrite Hinc; exact Hkeep | exact Hall].
      * simpl. rewrite Ha. simpl. rewrite Hrest. reflexivity.
    + destruct (IH _ Hloop) as (Hall & Hrest). split.
      * constructor; [rewrite Hinc; exact Hkeep | exact Hall].
      * exact Hrest.
Qed.

(** An exception in the decision on a contest, or in the transformation of
    a contest that is kept, ends the loop with an exception. *)
Lemma transform_contests_raises corrections contest_list contest e :
  In contest contest_list ->
  ContestTransformer.include (ContestTransformer.mk contest corrections)
  = Raise e
  \/ (ContestTransformer.include (ContestTransformer.mk contest corrections)
      = Ok true
      /\ ContestTransformer.dump (ContestTransformer.mk contest corrections)
         = Raise e) ->
  exists e', cli.transform_contests corrections contest_list = Raise e'.
Proof.
  intros Hin Hbad. induction contest_list as [|first rest IH]; [destruct Hin|].
  simpl.
  destruct (ContestTransformer.include (ContestTransformer.mk first corrections))
    as [keep|e1] eqn:Hkeep; simpl; [|eexists; reflexivity].
  assert (Hrest : first = contest
                  \/ exists e', cli.transform_contests corrections rest = Raise e').
  { destruct Hin as [->|Hin]; [left; reflexivity | right; apply IH, Hin]. }
  destruct keep.
  - destruct (ContestTransformer.dump (ContestTransformer.mk first corrections))
      as [record|e2] eqn:Hdump; simpl; [|eexists; reflexivity].
    destruct Hrest as [->|(e' & ->)]; [|eexists; reflexivity].
    destruct Hbad as [Hbad|[_ Hbad]]; congruence.
  - destruct Hrest as [->|(e' & He')]; [|eexists; exact He'].
    destruct Hbad as [Hbad|[Hbad _]]; congruence.
Qed.

End DriverClaims.

Lemma races_are_the_included_contests_witness :
  cli.transform_contests (H := Sample.collaborators) Sample.corrections
    [Sample.mayor; Sample.dog_catcher; Sample.clerk]
  = Ok [Sample.mayor_data; Sample.clerk_data]
  /\ List.filter (Spec.included Sample.corrections)
       [Sample.mayor; Sample.dog_catcher; Sample.clerk]
     = [Sample.mayor; Sample.clerk]
  /\ for_each
       (fun contest =>
          ContestTransformer.dump (H := Sample.collaborators)
            (ContestTransformer.mk contest Sample.corrections))
       (List.filter (Spec.included Sample.corrections)
          [Sample.mayor; Sample.dog_catcher; Sample.clerk])
     = Ok [Sample.mayor_data; Sample.clerk_data].
Proof.
  assert (Hrun :
    cli.transform_contests (H := Sample.collaborators) Sample.corrections
      [Sample.mayor; Sample.dog_catcher; Sample.clerk]
    = Ok [Sample.mayor_data; Sample.clerk_data])
    by (vm_compute; reflexivity).
  split; [exact Hrun|]. split; [vm_compute; reflexivity|].
  exact (proj2 (races_are_the_included_contests
                  (H := Sample.collaborators) _ _ _ Hrun)).
Defined.

Section RunClaims.
Context `{Collaborators}.

Lemma cli_Ok file_list now correx_rows dir races :
  cli.races_of file_list correx_rows = Ok races ->
  cli.cli file_list now correx_rows dir
  = (Ok tt,
     <["latest.json" := TransformedBatch.mk now races]>
       (<[now ++ ".json" := TransformedBatch.mk now races]> dir)).
Proof. unfold cli.cli, utils.write_json. intros ->. reflexivity. Qed.

Lemma cli_Raise file_list now correx_rows dir e :
  cli.races_of file_list correx_rows = Raise e ->
  cli.cli file_list now correx_rows dir = (Raise e, dir).
Proof. unfold cli.cli. intros ->. reflexivity. Qed.

Lemma cli_written file_list now correx_rows dir out :
  cli.cli file_list now correx_rows dir = (Ok tt, out) ->
  exists races,
    cli.races_of file_list correx_rows = Ok races
    /\ out !! "latest.json" = Some (TransformedBatch.mk now races)
    /\ out !! (now ++ ".json") = Some (TransformedBatch.mk now races).
Proof.
  destruct (cli.races_of file_list correx_rows) as [races|e] eqn:Hraces.
  - rewrite (cli_Ok _ _ _ _ _ Hraces). intros [= <-]. exists races.
    split; [reflexivity|]. split; [apply lookup_insert_eq|].
    destruct (decide ("latest.json" = now ++ ".json")) as [<-|Hne].
    + apply lookup_insert_eq.
    + rewrite lookup_insert_ne by exact Hne. apply lookup_insert_eq.
  - rewrite (cli_Raise _ _ _ _ _ Hraces). discriminate.
Qed.

(** C9: when flattening raises, or the decision on a contest raises, or the
    transformation of a kept contest raises (a malformed vote count, a
    missing field, a record the schema rejects), the run ends with an
    exception and the transformed-data directory is as it was before the
    run: neither the timestamped file nor latest.json is written. *)
Theorem failed_run_writes_nothing file_list now correx_rows dir :
  (forall e,
      cli.flatten file_list = Raise e ->
      cli.cli file_list now correx_rows dir = (Raise e, dir))
  /\ (forall contest_list contest e,
         cli.flatten file_list = Ok contest_list ->
         In contest contest_list ->
         let obj :=
           ContestTransformer.mk contest (get_corrections correx_rows) in
         ContestTransformer.include obj = Raise e
         \/ (ContestTransformer.include obj = Ok true
             /\ ContestTransformer.dump obj = Raise e) ->
         exists e', cli.cli file_list now correx_rows dir = (Raise e', dir))
  /\ (forall e,
         fst (cli.cli file_list now correx_rows dir) = Raise e ->
         snd (cli.cli file_list now correx_rows dir) = dir).
Proof.
  split; [|split].
  - intros e Hflat. apply cli_Raise. unfold cli.races_of.
    rewrite Hflat. reflexivity.
  - intros contest_list contest e Hflat Hin obj Hbad.
    destruct (transform_contests_raises _ _ _ _ Hin Hbad) as (e' & He').
    exists e'. apply cli_Raise. unfold cli.races_of.
    rewrite Hflat. exact He'.
  - intros e. unfold cli.cli.
    destruct (cli.races_of file_list correx_rows); [discriminate|reflexivity].
Qed.

End RunClaims.

Lemma failed_run_writes_nothing_witness :
  exists e,
    cli.cli (H := Sample.collaborators) [("governor", Sample.bad_race_list)]
      "2022-11-09T08:00:00" Sample.correx_rows Sample.old_dir
    = (Raise e, Sample.old_dir).
Proof.
  apply (proj1 (proj2 (failed_run_writes_nothing (H := Sample.collaborators)
                         [("governor", Sample.bad_race_list)]
                         "2022-11-09T08:00:00" Sample.correx_rows
                         Sample.old_dir))
           [Sample.mayor; Sample.treasurer] Sample.treasurer ValueError).
  - reflexivity.
  - right. left. reflexivity.
  - right. split; vm_compute; reflexivity.
Defined.

(** ** The order of discovery *)

Lemma file_list_Permutation obj_list1 obj_list2 :
  Permutation obj_list1 obj_list2 ->
  Permutation (cli.file_list obj_list1) (cli.file_list obj_list2).
Proof.
  unfold cli.file_list.
  induction 1 as [|o l l' _ IH|o o' l|l l' l'' _ IH1 _ IH2]; simpl.
  - constructor.
  - destruct (_ && _); [constructor|]; exact IH.
  - destruct (RawFile.is_file o && _), (RawFile.is_file o' && _);
      try reflexivity. apply perm_swap.
  - etransitivity; eassumption.
Qed.

Lemma flatten_Permutation files1 files2 :
  Permutation files1 files2 ->
  forall contests1,
    cli.flatten files1 = Ok contests1 ->
    exists contests2,
      cli.flatten files2 = Ok contests2 /\ Permutation contests1 contests2.
Proof.
  induction 1 as [|[slug raw_data] l l' _ IH
                 |[slug raw_data] [slug' raw_data'] l
                 |l l' l'' _ IH1 _ IH2]; intros contests1; simpl.
  - intros [= <-]. exists []. split; [reflexivity|constructor].
  - intros Hflat. bind_inv Hflat. injection Hflat as <-.
    destruct (IH _ Ha0) as (more' & -> & Hperm). rewrite Ha. simpl.
    eexists. split; [reflexivity|]. apply Permutation_app_head, Hperm.
  - destruct (cli.flatten_file slug' raw_data') as [first|e]; simpl;
      [|discriminate].
    destruct (cli.flatten_file slug raw_data) as [second|e]; simpl;
      [|discriminate].
    destruct (cli.flatten l) as [more|e]; simpl; [|discriminate].
    intros [= <-]. eexists. split; [reflexivity|].
    rewrite !app_assoc. apply Permutation_app_tail, Permutation_app_comm.
  - intros Hflat. destruct (IH1 _ Hflat) as (contests' & Hflat' & Hperm).
    destruct (IH2 _ Hflat') as (contests'' & Hflat'' & Hperm').
    exists contests''. split; [exact Hflat''|]. etransitivity; eassumption.
Qed.

Section DiscoveryOrder.
Context `{Collaborators}.

Lemma transform_contests_Permutation corrections contests1 contests2 :
  Permutation contests1 contests2 ->
  forall races1,
    cli.transform_contests corrections contests1 = Ok races1 ->
    exists races2,
      cli.transform_contests corrections contests2 = Ok races2
      /\ Permutation races1 races2.
Proof.
  induction 1 as [|contest l l' _ IH|contest contest' l|l l' l'' _ IH1 _ IH2];
    intros races1; simpl.
  - intros [= <-]. exists []. split; [reflexivity|constructor].
  - destruct (ContestTransformer.include _) as [[|]|e]; simpl;
      [| exact (IH races1) | discriminate].
    destruct (ContestTransformer.dump _) as [record|e]; simpl; [|discriminate].
    intros Hloop. bind_inv Hloop. injection Hloop as <-.
    destruct (IH _ Ha) as (races' & -> & Hperm). simpl.
    eexists. split; [reflexivity|]. constructor. exact Hperm.
  - destruct (ContestTransformer.include (ContestTransformer.mk contest' _))
      as [[|]|e]; simpl; [| |discriminate].
    + destruct (ContestTransformer.dump (ContestTransformer.mk contest' _))
        as [record'|e]; simpl; [|discriminate].
      destruct (ContestTransformer.include (ContestTransformer.mk contest _))
        as [[|]|e]; simpl; [| |discriminate].
      * destruct (ContestTransformer.dump (ContestTransformer.mk contest _))
          as [record|e]; simpl; [|discriminate].
        destruct (cli.transform_contests corrections l) as [races|e]; simpl;
          [|discriminate].
        intros [= <-]. eexists. split; [reflexivity|]. apply perm_swap.
      * destruct (cli.transform_contests corrections l) as [races|e]; simpl;
          [|discriminate].
        intros [= <-]. eexists. split; [reflexivity|]. reflexivity.
    + destruct (ContestTransformer.include (ContestTransformer.mk contest _))
        as [[|]|e]; simpl; [| |discriminate].
      * destruct (ContestTransformer.dump (ContestTransformer.mk contest _))
          as [record|e]; simpl; [|discriminate].
        destruct (cli.transform_contests corrections l) as [races|e]; simpl;
          [|discriminate].
        intros [= <-]. eexists. split; [reflexivity|]. reflexivity.
      * intros Hloop. eexists. split; [exact Hloop|]. reflexivity.
  - intros Hloop. destruct (IH1 _ Hloop) as (races' & Hloop' & Hperm).
    destruct (IH2 _ Hloop') as (races'' & Hloop'' & Hperm').
    exists races''. split; [exact Hloop''|]. etransitivity; eassumption.
Qed.

Lemma races_from_Permutation obj_list1 obj_list2 correx_rows races1 :
  Permutation obj_list1 obj_list2 ->
  cli.races_from obj_list1 correx_rows = Ok races1 ->
  exists races2,
    cli.races_from obj_list2 correx_rows = Ok races2
    /\ Permutation races1 races2.
Proof.
  unfold cli.races_from, cli.races_of. intros Hperm Hraces.
  apply bind_Ok in Hraces as (contests1 & Hflat & Hloop).
  destruct (flatten_Permutation
              (cli.read (cli.file_list obj_list1))
              (cli.read (cli.file_list obj_list2))) with (contests1 := contests1)
    as (contests2 & Hflat' & Hperm').
  { apply Permutation_map, file_list_Permutation, Hperm. }
  { exact Hflat. }
  destruct (transform_contests_Permutation _ _ _ Hperm' _ Hloop)
    as (races2 & Hloop' & Hperm'').
  exists races2. split; [|exact Hperm'']. rewrite Hflat'. exact Hloop'.
Qed.

(** C8 (amended): the races of a run are settled by the raw files and the
    corrections up to the order in which the glob yields the files. Two
    runs over the same files and the same correction table both succeed or
    both fail; when they succeed, with the same timestamp, their races
    arrays hold the same contests with the same field values, each as often,
    and the two arrays are equal when the files were discovered in the same
    order. *)
Theorem races_agree_up_to_discovery_order
    obj_list1 obj_list2 correx_rows now dir1 dir2 :
  Spec.same_files obj_list1 obj_list2 ->
  (forall races1,
      cli.races_from obj_list1 correx_rows = Ok races1 ->
      exists races2,
        cli.races_from obj_list2 correx_rows = Ok races2
        /\ Permutation races1 races2)
  /\ ((exists e, cli.races_from obj_list1 correx_rows = Raise e) ->
      exists e', cli.races_from obj_list2 correx_rows = Raise e')
  /\ (forall out1 out2,
         cli.main obj_list1 now correx_rows dir1 = (Ok tt, out1) ->
         cli.main obj_list2 now correx_rows dir2 = (Ok tt, out2) ->
         exists races1 races2,
           out1 !! "latest.json" = Some (TransformedBatch.mk now races1)
           /\ out2 !! "latest.json" = Some (TransformedBatch.mk now races2)
           /\ Permutation races1 races2
           /\ (cli.file_list obj_list1 = cli.file_list obj_list2 ->
               races1 = races2)).
Proof.
  unfold Spec.same_files. intros Hperm. split; [|split].
  - intros races1. apply races_from_Permutation, Hperm.
  - intros (e & Hraise).
    destruct (cli.races_from obj_list2 correx_rows) as [races2|e'] eqn:Hraces;
      [|eexists; reflexivity].
    symmetry in Hperm.
    destruct (races_from_Permutation _ _ _ _ Hperm Hraces) as (races1 & H1 & _).
    congruence.
  - unfold cli.main. intros out1 out2 H1 H2.
    apply cli_written in H1 as (races1 & Hraces1 & Hl1 & _).
    apply cli_written in H2 as (races2 & Hraces2 & Hl2 & _).
    exists races1, races2. split; [exact Hl1|]. split; [exact Hl2|]. split.
    + destruct (races_from_Permutation _ _ correx_rows races1 Hperm Hraces1)
        as (races2' & Hraces2' & Hperm').
      unfold cli.races_from in Hraces2'. congruence.
    + intros Hsame. rewrite Hsame in Hraces1. congruence.
Qed.

End DiscoveryOrder.

(** C8 as the claim states it fails: the driver does not sort what the glob
    yields, so the same two raw files discovered in the other order give the
    same two contests in the other order. *)
Lemma discovery_order_changes_races_order :
  ~ (forall obj_list1 obj_list2,
        Spec.same_files obj_list1 obj_list2 ->
        cli.races_from (H := Sample.collaborators) obj_list1 Sample.correx_rows
        = cli.races_from (H := Sample.collaborators) obj_list2
            Sample.correx_rows)
  /\ Spec.same_files [Sample.governor_file; Sample.court_file]
       [Sample.court_file; Sample.governor_file]
  /\ cli.races_from (H := Sample.collaborators)
       [Sample.governor_file; Sample.court_file] Sample.correx_rows
     = Ok [Sample.clerk_data; Sample.court_data]
  /\ cli.races_from (H := Sample.collaborators)
       [Sample.court_file; Sample.governor_file] Sample.correx_rows
     = Ok [Sample.court_data; Sample.clerk_data].
Proof.
  assert (Hsame : Spec.same_files [Sample.governor_file; Sample.court_file]
                    [Sample.court_file; Sample.governor_file])
    by apply perm_swap.
  assert (H1 : cli.races_from (H := Sample.collaborators)
                 [Sample.governor_file; Sample.court_file] Sample.correx_rows
               = Ok [Sample.clerk_data; Sample.court_data])
    by (vm_compute; reflexivity).
  assert (H2 : cli.races_from (H := Sample.collaborators)
                 [Sample.court_file; Sample.governor_file] Sample.correx_rows
               = Ok [Sample.court_data; Sample.clerk_data])
    by (vm_compute; reflexivity).
  split; [|auto].
  intros Hclaim. specialize (Hclaim _ _ Hsame).
  rewrite H1, H2 in Hclaim. discriminate Hclaim.
Qed.

Lemma races_agree_up_to_discovery_order_witness :
  exists races2,
    cli.races_from (H := Sample.collaborators)
      [Sample.court_file; Sample.old_file; Sample.governor_file;
       Sample.governor_dir]
      Sample.correx_rows = Ok races2
    /\ Permutation [Sample.clerk_data; Sample.court_data] races2.
Proof.
  apply (proj1 (races_agree_up_to_discovery_order (H := Sample.collaborators)
                  [Sample.governor_dir; Sample.governor_file;
                   Sample.old_file; Sample.court_file]
                  [Sample.court_file; Sample.old_file; Sample.governor_file;
                   Sample.governor_dir]
                  Sample.correx_rows "2022-11-09T08:00:00" ∅ ∅
                  (Permutation_rev
                     [Sample.governor_dir; Sample.governor_file;
                      Sample.old_file; Sample.court_file]))).
  vm_compute. reflexivity.
Defined.

(** ** Vote shares *)

Lemma rne_error n d : 0 < d -> - d <= 2 * (d * Float.rne n d - n) <= d.
Proof.
  intros Hd. unfold Float.rne.
  pose proof (Z.mod_pos_bound n d Hd) as Hr.
  pose proof (Z.div_mod n d ltac:(lia)) as Hn.
  destruct (2 * (n mod d) <? d) eqn:Hlow; [apply Z.ltb_lt in Hlow; nia|].
  apply Z.ltb_ge in Hlow.
  destruct (d <? 2 * (n mod d)) eqn:Hhigh.
  - apply Z.ltb_lt in Hhigh. nia.
  - apply Z.ltb_ge in Hhigh. destruct (Z.even (n / d)); nia.
Qed.

Lemma ulp_exponent_small n d :
  0 < n <= d -> -1074 <= Float.ulp_exponent n d <= -52.
Proof.
  intros [Hn Hd]. unfold Float.ulp_exponent.
  pose proof (Z.log2_le_mono n d Hd) as Hlog.
  set (l := Z.log2 n - Z.log2 d) in *.
  destruct (if 0 <=? l then _ else _); lia.
Qed.

(** Comparison of a fraction with a bound, by cross multiplication. *)
Lemma Qabs_fraction_le (a b c : Z) (e : positive) :
  0 < b -> - (c * b) <= a * Zpos e <= c * b ->
  (Qabs (a # Z.to_pos b) <= c # e)%Q.
Proof.
  intros Hb Habs. apply Qabs_Qle_condition.
  unfold Qle, Qopp; simpl. rewrite Z2Pos.id by exact Hb. lia.
Qed.

Lemma nearest_pos_error n d :
  0 < n <= d ->
  exists x,
    Float.nearest_pos n d = Some x
    /\ (Qabs (x - (n # Z.to_pos d)) <= 1 # 9007199254740992)%Q.
Proof.
  intros Hnd. pose proof (ulp_exponent_small n d Hnd) as Hp.
  unfold Float.nearest_pos, Float.scale.
  set (p := Float.ulp_exponent n d) in *.
  assert (Hneg : (0 <=? p) = false) by (apply Z.leb_gt; lia).
  rewrite Hneg. cbn [andb]. eexists. split; [reflexivity|].
  set (P := 2 ^ (- p)).
  assert (HP : 2 ^ 52 <= P) by (apply Z.pow_le_mono_r; lia).
  pose proof (rne_error (n * P) d ltac:(lia)) as Hm.
  set (m := Float.rne (n * P) d) in *.
  setoid_rewrite Qred_correct.
  assert (Hdiff : ((m # Z.to_pos P) - (n # Z.to_pos d)
                   == (m * d - n * P) # Z.to_pos (P * d))%Q).
  { unfold Qeq, Qminus, Qplus, Qopp. simpl.
    rewrite !Pos2Z.inj_mul, !Z2Pos.id by nia. ring. }
  rewrite Hdiff. apply Qabs_fraction_le; [nia|].
  change (Zpos 9007199254740992) with (2 * 2 ^ 52). nia.
Qed.

Lemma nearest_error n d :
  0 <= n <= d -> 0 < d ->
  exists x,
    Float.nearest n d = Some x
    /\ (Qabs (x - (n # Z.to_pos d)) <= 1 # 9007199254740992)%Q.
Proof.
  intros Hnd Hd. unfold Float.nearest.
  destruct (n =? 0) eqn:Hzero.
  - apply Z.eqb_eq in Hzero. subst n. exists 0%Q. split; [reflexivity|].
    apply Qabs_Qle_condition. unfold Qle, Qminus, Qplus, Qopp. simpl. lia.
  - apply Z.eqb_neq in Hzero.
    assert (Hpos : (0 <? n) = true) by (apply Z.ltb_lt; lia).
    rewrite Hpos. apply nearest_pos_error. lia.
Qed.

Lemma true_div_error votes vote_total :
  0 <= votes <= vote_total -> 0 < vote_total ->
  exists share,
    Float.true_div votes vote_total = Ok share
    /\ (Qabs (share - (votes # Z.to_pos vote_total))
        <= 1 # 9007199254740992)%Q.
Proof.
  intros Hv Ht. unfold Float.true_div.
  assert (Hne : (vote_total =? 0) = false) by (apply Z.eqb_neq; lia).
  assert (Hpos : (0 <? vote_total) = true) by (apply Z.ltb_lt; lia).
  rewrite Hne, Hpos.
  destruct (nearest_error votes vote_total Hv Ht) as (x & -> & Hx).
  exists x. split; [reflexivity | exact Hx].
Qed.

Lemma ten_thousandths_error x :
  (Qabs (inject_Z (Float.ten_thousandths x) - 10000 * x) <= 1 # 2)%Q.
Proof.
  unfold Float.ten_thousandths. destruct x as [a b]. simpl.
  pose proof (rne_error (a * 10000) (Zpos b) ltac:(lia)) as Hk.
  set (k := Float.rne (a * 10000) (Zpos b)) in *.
  apply Qabs_Qle_condition.
  unfold Qle, Qminus, Qplus, Qmult, Qopp, inject_Z. simpl. lia.
Qed.

Lemma fraction_in_unit n d :
  0 <= n <= d -> 0 < d -> (0 <= n # Z.to_pos d <= 1)%Q.
Proof.
  intros Hn Hd. unfold Qle. simpl. rewrite Z2Pos.id by exact Hd. lia.
Qed.

Lemma Qmake_scale k (d : positive) : (k # d == inject_Z k * (1 # d))%Q.
Proof. unfold Qeq, Qmult, inject_Z. simpl. lia. Qed.

(** The error of one share: a rounding of the quotient to a double, a
    rounding to four decimal places, and a rounding of the decimal to a
    double. *)
Lemma round4_share_error votes vote_total share :
  0 <= votes <= vote_total -> 0 < vote_total ->
  Float.true_div votes vote_total = Ok share ->
  (Qabs (Float.round4 share - (votes # Z.to_pos vote_total))
   <= (1 # 20000) + (1 # 4503599627370496))%Q.
Proof.
  intros Hv Ht Hdiv.
  destruct (true_div_error votes vote_total Hv Ht) as (share' & Hdiv' & Hshare).
  rewrite Hdiv in Hdiv'. injection Hdiv' as <-.
  pose proof (fraction_in_unit votes vote_total Hv Ht) as [Hw0 Hw1].
  set (w := (votes # Z.to_pos vote_total)%Q) in *.
  pose proof (ten_thousandths_error share) as Hk.
  unfold Float.round4. set (k := Float.ten_thousandths share) in *.
  apply Qabs_Qle_condition in Hshare, Hk.
  assert (Hrange : 0 <= k <= 10000).
  { assert (Hlow : (inject_Z (-1) < inject_Z k)%Q).
    { change (inject_Z (-1)) with (-1 # 1)%Q. lra. }
    assert (Hhigh : (inject_Z k < inject_Z 10001)%Q).
    { change (inject_Z 10001) with (10001 # 1)%Q. lra. }
    rewrite <- Zlt_Qlt in Hlow, Hhigh. lia. }
  destruct (nearest_error k 10000 Hrange ltac:(lia)) as (y & -> & Hy).
  change (Z.to_pos 10000) with 10000%positive in Hy.
  rewrite Qmake_scale in Hy.
  apply Qabs_Qle_condition in Hy. apply Qabs_Qle_condition. lra.
Qed.

Lemma votes_bounded_by_total (l : list CandidateResult.t) :
  Forall (fun r => 0 <= CandidateResult.votes r) l ->
  0 <= ContestTransformer.sum (map CandidateResult.votes l)
  /\ Forall
       (fun r =>
          CandidateResult.votes r
          <= ContestTransformer.sum (map CandidateResult.votes l)) l.
Proof.
  induction 1 as [|r l Hr _ [IH0 IH]]; simpl; [split; [lia|constructor]|].
  split; [lia|]. constructor; [lia|].
  eapply Forall_impl; [exact IH|]. intros w Hw. simpl in Hw. lia.
Qed.

Lemma total_share_error (T : positive) (eps : Q) (l : list CandidateResult.t) :
  Forall
    (fun r =>
       (Qabs (CandidateResult.votes_percent r - (CandidateResult.votes r # T))
        <= eps)%Q) l ->
  (Qabs (Float.total (map CandidateResult.votes_percent l)
         - (ContestTransformer.sum (map CandidateResult.votes l) # T))
   <= inject_Z (Z.of_nat (length l)) * eps)%Q.
Proof.
  induction 1 as [|r l Hr _ IH].
  - simpl. apply Qabs_Qle_condition. unfold Qle; simpl. lia.
  - cbn [map Float.total fold_right ContestTransformer.sum length].
    fold (Float.total (map CandidateResult.votes_percent l)).
    fold (ContestTransformer.sum (map CandidateResult.votes l)).
    rewrite Nat2Z.inj_succ, <- Z.add_1_l, inject_Z_plus, <- Qinv_plus_distr.
    apply Qabs_Qle_condition in Hr, IH. apply Qabs_Qle_condition.
    change (inject_Z 1) with 1%Q.
    set (n := inject_Z (Z.of_nat (length l))) in *.
    clearbody n.
    assert (Hmul : ((1 + n) * eps == eps + n * eps)%Q) by ring.
    rewrite Hmul.
    set (ne := (n * eps)%Q) in *.
    set (a := (CandidateResult.votes r # T)%Q) in *.
    set (b := (ContestTransformer.sum (map CandidateResult.votes l) # T)%Q) in *.
    clearbody ne a b. split; lra.
Qed.

Section Shares.
Context `{Collaborators}.

(** C6 (amended): in a transformed contest whose vote counts are all
    non-negative and whose total is above 0, the sum of the shares differs
    from 1.0 by at most 0.00005 + 2^-52 per candidate: each share is off
    by at most half a unit of the fourth decimal place, and by the two
    roundings to a double. *)
Theorem shares_sum_to_one_within_rounding self data :
  ContestTransformer.transform_data self = Ok data ->
  Forall (fun r => 0 <= CandidateResult.votes r) (Contest.candidates data) ->
  0 < ContestTransformer.sum
        (map CandidateResult.votes (Contest.candidates data)) ->
  (Qabs (Float.total
           (map CandidateResult.votes_percent (Contest.candidates data)) - 1)
   <= inject_Z (Z.of_nat (length (Contest.candidates data)))
      * ((1 # 20000) + (1 # 4503599627370496)))%Q.
Proof.
  intros Ht Hnonneg Hpos.
  destruct (transform_data_candidates _ _ Ht) as (raw_candidates & _ & Hall).
  set (vote_total :=
         ContestTransformer.sum
           (map CandidateResult.votes (Contest.candidates data))) in *.
  assert (Hone : (vote_total # Z.to_pos vote_total == 1)%Q).
  { unfold Qeq. simpl. rewrite Z2Pos.id by exact Hpos. lia. }
  rewrite <- Hone. apply total_share_error.
  destruct (votes_bounded_by_total _ Hnonneg) as [_ Hle].
  fold vote_total in Hle.
  apply (Forall2_right _ (fun r => Spec.share_of vote_total
                              (CandidateResult.votes r)
                              (CandidateResult.votes_percent r))) in Hall;
    [|intros c r (_ & _ & _ & Hs); exact Hs].
  clearbody vote_total.
  rewrite Forall_forall in Hnonneg, Hle, Hall. apply Forall_forall.
  intros r Hr. destruct (Hall r Hr) as [Hshare _].
  destruct (Hshare Hpos) as (share & Hdiv & ->).
  specialize (Hnonneg r Hr). specialize (Hle r Hr). cbv beta in *.
  apply round4_share_error; [lia | exact Hpos | exact Hdiv].
Qed.

End Shares.

(** C6 as the claim states it fails: six candidates with one vote each get
    0.1667 each, and the six shares sum to 1.0002, further than 0.0001 from
    1.0. *)
Lemma six_equal_shares_exceed_tolerance :
  ContestTransformer.transform_data (H := Sample.collaborators)
    Sample.council_obj = Ok Sample.council_data
  /\ Forall (fun r => 0 <= CandidateResult.votes r)
       (Contest.candidates Sample.council_data)
  /\ ContestTransformer.sum
       (map CandidateResult.votes (Contest.candidates Sample.council_data))
     = 6
  /\ ~ (Qabs (Float.total
                (map CandidateResult.votes_percent
                   (Contest.candidates Sample.council_data)) - 1)
        <= 1 # 10000)%Q.
Proof.
  split; [vm_compute; reflexivity|].
  split; [repeat constructor; discriminate|].
  split; [reflexivity|].
  intros Hle. vm_compute in Hle. apply Hle. reflexivity.
Qed.

Lemma shares_sum_to_one_within_rounding_witness :
  (Qabs (Float.total
           (map CandidateResult.votes_percent
              (Contest.candidates Sample.mayor_data)) - 1)
   <= inject_Z 3 * ((1 # 20000) + (1 # 4503599627370496)))%Q.
Proof.
  apply (shares_sum_to_one_within_rounding (H := Sample.collaborators)
           Sample.mayor_obj Sample.mayor_data).
  - vm_compute. reflexivity.
  - repeat constructor; discriminate.
  - reflexivity.
Defined.

(** * Further properties *)

(** ** The corrections table *)

Lemma get_corrections_snoc rows d :
  get_corrections (rows ++ [d])
  = <[Correction.raw_name d := d]> (get_corrections rows).
Proof. unfold get_corrections. rewrite foldl_app. reflexivity. Qed.

(** X1: the table maps a title to the last row of the file with that
    [raw_name]; an earlier row with the same name is lost. *)
Theorem get_corrections_last_row_wins rows title :
  get_corrections rows !! title = Spec.last_row rows title.
Proof.
  unfold Spec.last_row.
  induction rows as [|d rows IH] using rev_ind.
  - apply lookup_empty.
  - rewrite get_corrections_snoc, rev_unit. simpl.
    destruct (String.eqb (Correction.raw_name d) title) eqn:Hd.
    + apply String.eqb_eq in Hd. subst title. apply lookup_insert_eq.
    + apply String.eqb_neq in Hd. rewrite lookup_insert_ne by exact Hd.
      exact IH.
Qed.

(** X2: a row found under a title is a row of the file and carries that
    title as its [raw_name]; a title has no row exactly when no row of the
    file has it as [raw_name]. *)
Theorem get_corrections_keys rows title :
  (forall d,
      get_corrections rows !! title = Some d ->
      In d rows /\ Correction.raw_name d = title)
  /\ (get_corrections rows !! title = None <->
      forall d, In d rows -> Correction.raw_name d <> title).
Proof.
  rewrite get_corrections_last_row_wins. unfold Spec.last_row. split.
  - intros d Hd. apply find_some in Hd as [Hin Heq].
    split; [apply in_rev, Hin | apply String.eqb_eq, Heq].
  - split.
    + intros Hnone d Hin. apply String.eqb_neq.
      apply (find_none _ _ Hnone). apply in_rev in Hin. exact Hin.
    + intros Hall.
      destruct (List.find _ (rev rows)) as [d|] eqn:Hfind; [|reflexivity].
      apply find_some in Hfind as [Hin Heq]. apply String.eqb_eq in Heq.
      apply in_rev in Hin. destruct (Hall d Hin Heq).
Qed.

Lemma get_corrections_keys_witness :
  In (Correction.mk "Mayor" (Some "Yes") (Some "Mayor of Springfield")
        (Some EmptyString) (Some "Springfield") (Some "Alice"))
    Sample.correx_rows
  /\ get_corrections Sample.correx_rows !! "City Clerk" = None.
Proof.
  destruct (get_corrections_keys Sample.correx_rows "Mayor") as [Hsome _].
  destruct (get_corrections_keys Sample.correx_rows "City Clerk") as [_ Hnone].
  split.
  - apply (Hsome _ ltac:(vm_compute; reflexivity)).
  - apply Hnone. intros d [<-|[<-|[]]]; discriminate.
Defined.

(** ** More on flattening *)

(** X3: a raw document without a [races] key in the ballot-measures
    category gives, for each entry of its "ballot-measures" list in order,
    one contest titled "Proposition ", the entry's number, ": " and its
    name, with the candidates Yes and No carrying yesVotes and noVotes and
    with the document's Reporting; flattening succeeds when the fields are
    there. *)
Theorem flatten_file_ballot_measures :
  (forall raw_data entries contests,
      RawDocument.races raw_data = None ->
      RawDocument.ballot_measures raw_data = Some entries ->
      cli.flatten_file "ballot-measures" raw_data = Ok contests ->
      Forall2
        (fun race contest =>
           exists number name yes no reporting,
             Measure.Number race = Some number
             /\ Measure.Name race = Some name
             /\ Measure.yesVotes race = Some yes
             /\ Measure.noVotes race = Some no
             /\ RawDocument.Reporting raw_data = Some reporting
             /\ contest
                = RawContest.mk
                    (Some ("Proposition " ++ number ++ ": " ++ name))
                    (Some reporting)
                    (Some [RawCandidate.mk (Some "Yes") None (Some yes)
                             None None;
                           RawCandidate.mk (Some "No") None (Some no)
                             None None]))
        entries contests)
  /\ (forall raw_data entries reporting,
         RawDocument.races raw_data = None ->
         RawDocument.ballot_measures raw_data = Some entries ->
         RawDocument.Reporting raw_data = Some reporting ->
         Forall
           (fun race =>
              Measure.Number race <> None
              /\ Measure.Name race <> None
              /\ Measure.yesVotes race <> None
              /\ Measure.noVotes race <> None)
           entries ->
         exists contests,
           cli.flatten_file "ballot-measures" raw_data = Ok contests
           /\ length contests = length entries).
Proof.
  split.
  - intros raw_data entries contests Hraces Hentries Hflat.
    unfold cli.flatten_file in Hflat. rewrite Hraces, Hentries in Hflat.
    simpl in Hflat. apply for_each_Ok in Hflat.
    eapply Forall2_impl; [exact Hflat|].
    intros race contest Hrace. simpl in Hrace. bind_inv Hrace.
    injection Hrace as <-. apply getitem_Ok in Ha, Ha0, Ha1, Ha2, Ha3.
    exists a, a0, a2, a3, a1. auto 10.
  - intros raw_data entries reporting Hraces Hentries Hreporting Hfields.
    unfold cli.flatten_file. rewrite Hraces, Hentries, Hreporting. simpl.
    match goal with |- exists _, for_each ?f _ = _ /\ _ =>
      destruct (for_each_total f entries) as (contests & Hc) end.
    + eapply Forall_impl; [exact Hfields|].
      intros race (Hnum & Hn & Hy & Hno). simpl in *.
      destruct (Measure.Number race); [|contradiction].
      destruct (Measure.Name race); [|contradiction].
      destruct (Measure.yesVotes race); [|contradiction].
      destruct (Measure.noVotes race); [|contradiction].
      eexists. reflexivity.
    + exists contests. split; [exact Hc|]. eapply for_each_length, Hc.
Qed.

Lemma flatten_file_ballot_measures_witness :
  exists contests,
    cli.flatten_file "ballot-measures" Sample.ballot_measures = Ok contests
    /\ length contests = 1%nat.
Proof.
  apply (proj2 flatten_file_ballot_measures Sample.ballot_measures
           [Measure.mk (Some "1") (Some "Tax Reform") (Some "10") (Some "0")]
           "100%"); try reflexivity.
  repeat constructor; discriminate.
Defined.

(** X4: a document without a [races] key in any other category is taken
    as one contest, itself, whatever keys it has: flattening never rejects
    it. In the two list categories a document without its list raises
    KeyError, and so does a list entry without its name. *)
Theorem flatten_file_other_shapes :
  (forall slug raw_data,
      RawDocument.races raw_data = None ->
      slug <> "supreme-court" -> slug <> "ballot-measures" ->
      cli.flatten_file slug raw_data = Ok [RawDocument.as_contest raw_data])
  /\ (forall raw_data,
         RawDocument.races raw_data = None ->
         RawDocument.supreme_court raw_data = None ->
         cli.flatten_file "supreme-court" raw_data
         = Raise (KeyError "supreme-court"))
  /\ (forall raw_data,
         RawDocument.races raw_data = None ->
         RawDocument.ballot_measures raw_data = None ->
         cli.flatten_file "ballot-measures" raw_data
         = Raise (KeyError "ballot-measures"))
  /\ (forall raw_data before race after,
         RawDocument.races raw_data = None ->
         RawDocument.supreme_court raw_data
         = Some (before ++ race :: after)%list ->
         Retention.Name race = None ->
         exists e, cli.flatten_file "supreme-court" raw_data = Raise e).
Proof.
  split; [|split; [|split]].
  - intros slug raw_data Hraces Hcourt Hmeasures. unfold cli.flatten_file.
    rewrite Hraces. apply String.eqb_neq in Hcourt, Hmeasures.
    rewrite Hcourt, Hmeasures. reflexivity.
  - intros raw_data Hraces Hnone. unfold cli.flatten_file.
    rewrite Hraces, Hnone. reflexivity.
  - intros raw_data Hraces Hnone. unfold cli.flatten_file.
    rewrite Hraces, Hnone. reflexivity.
  - intros raw_data before race after Hraces Hentries Hname.
    unfold cli.flatten_file. rewrite Hraces, Hentries. simpl.
    match goal with |- exists _, for_each ?f _ = _ => set (body := f) end.
    destruct (for_each body (before ++ race :: after)%list)
      as [contests|e] eqn:Hloop;
      [|eexists; reflexivity].
    apply for_each_Ok in Hloop. apply Forall2_app_inv_l in Hloop
      as (c1 & c2 & _ & Hrest & _).
    inversion Hrest as [|? contest ? ? Hrace _]; subst.
    unfold body in Hrace. rewrite Hname in Hrace. discriminate.
Qed.

Lemma flatten_file_other_shapes_witness :
  cli.flatten_file "governor"
    (RawDocument.mk None None None (Some "Governor") (Some "10%") (Some []))
  = Ok [RawContest.mk (Some "Governor") (Some "10%") (Some [])]
  /\ cli.flatten_file "supreme-court"
       (RawDocument.mk None None None (Some "Governor") (Some "10%") (Some []))
     = Raise (KeyError "supreme-court")
  /\ exists e,
       cli.flatten_file "supreme-court"
         (RawDocument.mk None
            (Some [Retention.mk (Some "Smith") (Some "1") (Some "2");
                   Retention.mk None (Some "3") (Some "4")])
            None None (Some "10%") None)
       = Raise e.
Proof.
  destruct flatten_file_other_shapes as (Hother & Hcourt & _ & Hentry).
  split; [|split].
  - apply (Hother "governor"); [reflexivity | discriminate | discriminate].
  - apply Hcourt; reflexivity.
  - apply (Hentry _ [Retention.mk (Some "Smith") (Some "1") (Some "2")]
             (Retention.mk None (Some "3") (Some "4")) []); reflexivity.
Defined.

(** X5: the files are flattened in the order given and their contests
    follow one another: flattening two lists of files one after the other
    gives the contests of the first followed by those of the second, and an
    exception in either is the outcome. *)
Theorem flatten_app files1 files2 :
  cli.flatten (files1 ++ files2)
  = match cli.flatten files1 with
    | Ok contests1 =>
        match cli.flatten files2 with
        | Ok contests2 => Ok (contests1 ++ contests2)%list
        | Raise e => Raise e
        end
    | Raise e => Raise e
    end.
Proof.
  induction files1 as [|[slug raw_data] files1 IH]; simpl.
  - destruct (cli.flatten files2); reflexivity.
  - destruct (cli.flatten_file slug raw_data) as [contests|e]; simpl;
      [|reflexivity].
    rewrite IH. destruct (cli.flatten files1) as [contests1|e]; simpl;
      [|reflexivity].
    destruct (cli.flatten files2) as [contests2|e]; simpl; [|reflexivity].
    rewrite app_assoc. reflexivity.
Qed.

(** ** More on the driver *)

Section DriverFurther.
Context `{Collaborators}.

Lemma transform_contests_app corrections contests1 contests2 :
  cli.transform_contests corrections (contests1 ++ contests2)
  = match cli.transform_contests corrections contests1 with
    | Ok races1 =>
        match cli.transform_contests corrections contests2 with
        | Ok races2 => Ok (races1 ++ races2)%list
        | Raise e => Raise e
        end
    | Raise e => Raise e
    end.
Proof.
  induction contests1 as [|contest contests1 IH]; simpl.
  - destruct (cli.transform_contests corrections contests2); reflexivity.
  - destruct (ContestTransformer.include _) as [[|]|e]; simpl;
      [| exact IH | reflexivity].
    destruct (ContestTransformer.dump _) as [record|e]; simpl; [|reflexivity].
    rewrite IH.
    destruct (cli.transform_contests corrections contests1) as [races1|e];
      simpl; [|reflexivity].
    destruct (cli.transform_contests corrections contests2) as [races2|e];
      reflexivity.
Qed.

(** X6: the races of a run follow the files: when two lists of files each
    transform without an exception, the races of the two lists taken
    together are the races of the first followed by the races of the
    second. *)
Theorem races_of_app files1 files2 correx_rows races1 races2 :
  cli.races_of files1 correx_rows = Ok races1 ->
  cli.races_of files2 correx_rows = Ok races2 ->
  cli.races_of (files1 ++ files2) correx_rows = Ok (races1 ++ races2)%list.
Proof.
  unfold cli.races_of. intros H1 H2. bind_inv H1. bind_inv H2.
  rewrite flatten_app, Ha, Ha0. simpl.
  rewrite transform_contests_app, H1, H2. reflexivity.
Qed.

(** X7: a run that succeeds leaves the same batch under latest.json and
    under the timestamped name, stamped with the time of the run, and
    touches no other file of the directory. *)
Theorem cli_writes_two_files file_list now correx_rows dir out :
  cli.cli file_list now correx_rows dir = (Ok tt, out) ->
  out !! "latest.json" = out !! (now ++ ".json")
  /\ (exists batch,
         out !! "latest.json" = Some batch
         /\ TransformedBatch.scraped_datetime batch = now)
  /\ (forall path,
         path <> "latest.json" -> path <> now ++ ".json" ->
         out !! path = dir !! path).
Proof.
  intros Hrun. pose proof Hrun as Hwritten.
  apply cli_written in Hwritten as (races & Hraces & Hlatest & Hstamped).
  split; [congruence|]. split.
  - eexists. split; [exact Hlatest | reflexivity].
  - intros path Hl Ht. rewrite (cli_Ok _ _ _ _ _ Hraces) in Hrun.
    injection Hrun as <-.
    rewrite lookup_insert_ne by congruence.
    rewrite lookup_insert_ne by congruence. reflexivity.
Qed.

(** X8: a contest without a raceTitle is never dropped quietly: the
    lookup of its correction swallows the KeyError, so [include] keeps it,
    its transformation raises KeyError for raceTitle, and the loop over
    any list that holds it ends with an exception. *)
Theorem untitled_contest_aborts corrections contest_list contest :
  In contest contest_list ->
  RawContest.raceTitle contest = None ->
  ContestTransformer.include (ContestTransformer.mk contest corrections)
  = Ok true
  /\ ContestTransformer.transform_data
       (ContestTransformer.mk contest corrections)
     = Raise (KeyError "raceTitle")
  /\ exists e, cli.transform_contests corrections contest_list = Raise e.
Proof.
  intros Hin Htitle.
  assert (Hinclude :
    ContestTransformer.include (ContestTransformer.mk contest corrections)
    = Ok true).
  { unfold ContestTransformer.include, ContestTransformer._get_correction.
    simpl. rewrite Htitle. reflexivity. }
  assert (Htransform :
    ContestTransformer.transform_data
      (ContestTransformer.mk contest corrections)
    = Raise (KeyError "raceTitle")).
  { unfold ContestTransformer.transform_data, ContestTransformer.correct_name,
      ContestTransformer._get_correction.
    simpl. rewrite Htitle. reflexivity. }
  split; [exact Hinclude|]. split; [exact Htransform|].
  apply (transform_contests_raises corrections contest_list contest
           (KeyError "raceTitle") Hin).
  right. split; [exact Hinclude|].
  unfold ContestTransformer.dump, BaseTransformer.dump.
  rewrite Htransform. reflexivity.
Qed.

End DriverFurther.

Lemma races_of_app_witness :
  cli.races_of (H := Sample.collaborators)
    ([("governor", Sample.race_list)]
     ++ [("supreme-court", Sample.supreme_court)])%list
    Sample.correx_rows
  = Ok ([Sample.mayor_data; Sample.clerk_data] ++ [Sample.court_data])%list.
Proof.
  apply (races_of_app (H := Sample.collaborators)); vm_compute; reflexivity.
Defined.

Lemma cli_writes_two_files_witness :
  exists out,
    cli.cli (H := Sample.collaborators) [("governor", Sample.race_list)]
      "2022-11-09T08:00:00" Sample.correx_rows Sample.old_dir = (Ok tt, out)
    /\ out !! "latest.json" = out !! "2022-11-09T08:00:00.json"
    /\ out !! "2022-11-08T20:00:00.json"
       = Sample.old_dir !! "2022-11-08T20:00:00.json".
Proof.
  assert (Hraces :
    cli.races_of (H := Sample.collaborators) [("governor", Sample.race_list)]
      Sample.correx_rows
    = Ok [Sample.mayor_data; Sample.clerk_data])
    by (vm_compute; reflexivity).
  pose proof (cli_Ok (H := Sample.collaborators) _ "2022-11-09T08:00:00"
                _ Sample.old_dir _ Hraces) as Hrun.
  eexists. split; [exact Hrun|].
  destruct (cli_writes_two_files (H := Sample.collaborators) _ _ _ _ _ Hrun)
    as (Hsame & _ & Hframe).
  split; [exact Hsame|]. apply Hframe; discriminate.
Defined.

Lemma untitled_contest_aborts_witness :
  exists e,
    cli.transform_contests (H := Sample.collaborators) Sample.corrections
      [Sample.mayor; RawContest.mk None (Some "1%") (Some [])]
    = Raise e.
Proof.
  apply (untitled_contest_aborts (H := Sample.collaborators)
           Sample.corrections
           [Sample.mayor; RawContest.mk None (Some "1%") (Some [])]
           (RawContest.mk None (Some "1%") (Some []))).
  - right. left. reflexivity.
  - reflexivity.
Defined.

(** ** More on one contest *)

Section ContestFurther.
Context `{Collaborators}.

(** X9: the reporting progress of a transformed contest is the raw
    Reporting value as it came; its description and its geography are the
    clean values of the correction row for the raw title where the row has
    non-empty ones, and null where there is no row or the value is empty. *)
Theorem corrected_fields_or_null self data :
  ContestTransformer.transform_data self = Ok data ->
  exists title,
    RawContest.raceTitle (ContestTransformer.raw self) = Some title
    /\ RawContest.Reporting (ContestTransformer.raw self)
       = Some (Contest.precincts_reporting data)
    /\ (ContestTransformer.corrections self !! title = None ->
        Contest.description data = None /\ Contest.geography data = None)
    /\ (forall row,
           ContestTransformer.corrections self !! title = Some row ->
           (forall clean,
               Correction.clean_description row = Some clean ->
               clean <> EmptyString ->
               Contest.description data = Some clean)
           /\ (Correction.clean_description row = Some EmptyString
               \/ Correction.clean_description row = None ->
               Contest.description data = None)
           /\ (forall clean,
                  Correction.clean_geography row = Some clean ->
                  clean <> EmptyString ->
                  Contest.geography data = Some clean)
           /\ (Correction.clean_geography row = Some EmptyString
               \/ Correction.clean_geography row = None ->
               Contest.geography data = None)).
Proof.
  intros Ht. apply transform_data_stages in Ht
    as (title & reporting & raw_candidates & marked & parsed & shared
        & Htitle & _ & _ & Hdesc & Hgeo & Hrep & Hpre & _).
  exists title. split; [exact Htitle|]. split; [congruence|].
  unfold ContestTransformer.correct_description,
    ContestTransformer.correct_geography,
    ContestTransformer._get_correction in Hdesc, Hgeo.
  rewrite Htitle in Hdesc, Hgeo. split.
  - intros Hrow. rewrite Hrow in Hdesc, Hgeo. auto.
  - intros row Hrow. rewrite Hrow in Hdesc, Hgeo. repeat split.
    + intros clean Hclean Hne. rewrite Hdesc. apply or_None_Some. auto.
    + intros [Hclean|Hclean]; rewrite Hdesc, Hclean; reflexivity.
    + intros clean Hclean Hne. rewrite Hgeo. apply or_None_Some. auto.
    + intros [Hclean|Hclean]; rewrite Hgeo, Hclean; reflexivity.
Qed.

(** The incumbent field and the party of each transformed candidate. *)
Lemma transform_data_marks self data :
  ContestTransformer.transform_data self = Ok data ->
  exists raw_candidates marked,
    RawContest.candidates (ContestTransformer.raw self) = Some raw_candidates
    /\ ContestTransformer.correct_incumbent self raw_candidates = Ok marked
    /\ Forall2
         (fun c r =>
            CandidateResult.incumbent r = RawCandidate.incumbent c
            /\ CandidateResult.party r = RawCandidate.Party c
            /\ RawCandidate.Name c = Some (CandidateResult.name r))
         marked (Contest.candidates data).
Proof.
  intros Ht. apply transform_data_stages in Ht
    as (title & reporting & raw_candidates & marked & parsed & shared
        & _ & _ & _ & _ & _ & _ & _ & Hraw & Hmark & _ & Hshare & Hdump).
  exists raw_candidates, marked. split; [exact Hraw|]. split; [exact Hmark|].
  apply for_each_Ok in Hshare, Hdump.
  eapply Forall2_impl; [exact (Forall2_compose _ _ _ _ _ Hshare Hdump)|].
  intros c r (c' & Hc & Hr). simpl in *.
  apply set_votes_percent_Ok in Hc as (x & -> & _).
  apply candidate_dump_Ok in Hr as (Hn & Hp & _ & _ & Hi & _). auto.
Qed.

(** X10: the party of a transformed candidate is the raw Party (null when
    absent). Its incumbent flag is the raw one (null when absent) when the
    contest has no correction row or the row's incumbent value is empty,
    and otherwise tells whether the candidate's name is a substring of
    that value. *)
Theorem party_and_incumbent_of_output self data :
  ContestTransformer.transform_data self = Ok data ->
  exists raw_candidates,
    RawContest.candidates (ContestTransformer.raw self) = Some raw_candidates
    /\ Forall2
         (fun c r =>
            CandidateResult.party r = RawCandidate.Party c
            /\ match ContestTransformer._get_correction self with
               | Some row =>
                   match Correction.incumbent row with
                   | Some (String first rest) =>
                       CandidateResult.incumbent r
                       = Some (Str.contains (CandidateResult.name r)
                                 (String first rest))
                   | _ =>
                       CandidateResult.incumbent r = RawCandidate.incumbent c
                   end
               | None =>
                   CandidateResult.incumbent r = RawCandidate.incumbent c
               end)
         raw_candidates (Contest.candidates data).
Proof.
  intros Ht.
  destruct (transform_data_marks _ _ Ht)
    as (raw_candidates & marked & Hraw & Hmark & Hout).
  exists raw_candidates. split; [exact Hraw|].
  destruct (ContestTransformer._get_correction self) as [row|] eqn:Hrow.
  - destruct (Correction.incumbent row) as [[|first rest]|] eqn:Hinc.
    + rewrite correct_incumbent_without in Hmark
        by (rewrite Hrow, Hinc; reflexivity).
      injection Hmark as <-. eapply Forall2_impl; [exact Hout|].
      intros c r (Hi & Hp & _). auto.
    + assert (Hor : ContestTransformer.or_None (Correction.incumbent row)
                    = Some (String first rest)) by (rewrite Hinc; reflexivity).
      pose proof (correct_incumbent_with _ _ _ _ _ Hrow Hor Hmark) as Hwith.
      eapply Forall2_impl; [exact (Forall2_compose _ _ _ _ _ Hwith Hout)|].
      intros c r (c' & (name & Hname & ->) & Hi & Hp & Hn).
      cbn [RawCandidate.incumbent RawCandidate.Party RawCandidate.Name
           RawCandidate.set_incumbent] in *.
      split; [exact Hp|]. rewrite Hi. congruence.
    + rewrite correct_incumbent_without in Hmark
        by (rewrite Hrow, Hinc; reflexivity).
      injection Hmark as <-. eapply Forall2_impl; [exact Hout|].
      intros c r (Hi & Hp & _). auto.
  - rewrite correct_incumbent_without in Hmark by (rewrite Hrow; exact I).
    injection Hmark as <-. eapply Forall2_impl; [exact Hout|].
    intros c r (Hi & Hp & _). auto.
Qed.

(** X11: when the parsed counts of a contest sum to 0 or less, which
    negative counts allow, every candidate of the transformed contest has
    the share 0.0, also those with votes. *)
Theorem nonpositive_total_gives_zero_shares self data :
  ContestTransformer.transform_data self = Ok data ->
  ContestTransformer.sum
    (map CandidateResult.votes (Contest.candidates data)) <= 0 ->
  Forall (fun r => CandidateResult.votes_percent r = 0%Q)
    (Contest.candidates data).
Proof.
  intros Ht Htotal.
  destruct (transform_data_candidates _ _ Ht) as (raw_candidates & _ & Hall).
  eapply Forall2_right; [|exact Hall].
  intros c r (_ & _ & _ & _ & Hzero). apply Hzero, Htotal.
Qed.

End ContestFurther.

Lemma corrected_fields_or_null_witness :
  Contest.geography Sample.mayor_data = Some "Springfield"
  /\ Contest.description Sample.mayor_data = None.
Proof.
  assert (Hrun : ContestTransformer.transform_data (H := Sample.collaborators)
                   Sample.mayor_obj = Ok Sample.mayor_data)
    by (vm_compute; reflexivity).
  destruct (corrected_fields_or_null (H := Sample.collaborators)
              Sample.mayor_obj Sample.mayor_data Hrun)
    as (title & Htitle & _ & _ & Hrow).
  injection Htitle as <-.
  destruct (Hrow (Correction.mk "Mayor" (Some "Yes")
                    (Some "Mayor of Springfield") (Some EmptyString)
                    (Some "Springfield") (Some "Alice"))
              ltac:(vm_compute; reflexivity))
    as (_ & Hdesc & Hgeo & _).
  split.
  - apply Hgeo; [reflexivity | discriminate].
  - apply Hdesc. left. reflexivity.
Defined.

Lemma party_and_incumbent_of_output_witness :
  exists raw_candidates,
    RawContest.candidates Sample.mayor = Some raw_candidates
    /\ length raw_candidates = length (Contest.candidates Sample.mayor_data).
Proof.
  destruct (party_and_incumbent_of_output (H := Sample.collaborators)
              Sample.mayor_obj Sample.mayor_data
              ltac:(vm_compute; reflexivity))
    as (raw_candidates & Hraw & Hall).
  exists raw_candidates. split; [exact Hraw|].
  eapply Forall2_length, Hall.
Defined.

Lemma nonpositive_total_gives_zero_shares_witness :
  Forall (fun r => CandidateResult.votes_percent r = 0%Q)
    (Contest.candidates Sample.recount_data).
Proof.
  apply (nonpositive_total_gives_zero_shares (H := Sample.lenient)
           Sample.recount_obj Sample.recount_data).
  - vm_compute. reflexivity.
  - vm_compute. discriminate.
Defined.

(** ** When the transformation of a contest succeeds and when it fails *)

Lemma for_each_Forall2_ext {A A' B} (f : A -> result B) (g : A' -> result B) l k :
  Forall2 (fun x y => f x = g y) l k -> for_each f l = for_each g k.
Proof.
  induction 1 as [|x y l k Hxy _ IH]; simpl; [reflexivity|].
  rewrite Hxy, IH. reflexivity.
Qed.

Lemma for_each_raises {A B} (f : A -> result B) l e :
  Forall (fun x => (exists y, f x = Ok y) \/ f x = Raise e) l ->
  Exists (fun x => f x = Raise e) l ->
  for_each f l = Raise e.
Proof.
  intros Hall Hsome. induction Hall as [|x l Hx Hall IH]; [inversion Hsome|].
  simpl. destruct Hx as [(y & Hy)|Hx]; [|rewrite Hx; reflexivity].
  rewrite Hy. simpl.
  inversion Hsome as [? ? Hbad|? ? Hrest]; subst; [congruence|].
  rewrite (IH Hrest). reflexivity.
Qed.

Lemma parse_votes_same_Votes c c' :
  RawCandidate.Votes c' = RawCandidate.Votes c ->
  ContestTransformer.parse_votes c' = ContestTransformer.parse_votes c.
Proof. unfold ContestTransformer.parse_votes. intros ->. reflexivity. Qed.

Lemma correct_name_total self title :
  RawContest.raceTitle (ContestTransformer.raw self) = Some title ->
  exists name, ContestTransformer.correct_name self = Ok name.
Proof.
  intros Htitle. unfold ContestTransformer.correct_name. rewrite Htitle.
  destruct (ContestTransformer._get_correction self) as [row|];
    [|eexists; reflexivity].
  destruct (Correction.clean_name row) as [clean|]; [|eexists; reflexivity].
  destruct (Str.truthy clean); eexists; reflexivity.
Qed.

Lemma correct_incumbent_total self candidate_list :
  Forall (fun c => RawCandidate.Name c <> None) candidate_list ->
  exists marked,
    ContestTransformer.correct_incumbent self candidate_list = Ok marked.
Proof.
  intros Hnames. unfold ContestTransformer.correct_incumbent.
  destruct (ContestTransformer._get_correction self) as [row|];
    [|eexists; reflexivity].
  destruct (ContestTransformer.or_None (Correction.incumbent row));
    [|eexists; reflexivity].
  apply for_each_total. eapply Forall_impl; [exact Hnames|].
  intros c Hn. simpl in Hn.
  destruct (RawCandidate.Name c); [|contradiction]. eexists. reflexivity.
Qed.

(** The votes the loops see are those of the raw candidates. *)
Lemma marked_parse_votes self candidate_list marked :
  ContestTransformer.correct_incumbent self candidate_list = Ok marked ->
  for_each ContestTransformer.parse_votes marked
  = for_each ContestTransformer.parse_votes candidate_list.
Proof.
  intros Hm%correct_incumbent_frame. apply for_each_Forall2_ext.
  apply Forall2_flip. eapply Forall2_impl; [exact Hm|].
  intros c c' (_ & _ & Hv & _). apply parse_votes_same_Votes, Hv.
Qed.

Section ContestOutcome.
Context `{Collaborators}.

(** X14: one malformed vote count fails the whole contest: when the
    contest has its title, its Reporting and its candidates, every
    candidate has a Name and a Votes value, and the Votes of some candidate
    is no integer literal, the transformation raises ValueError. *)
Theorem malformed_votes_raise_ValueError self title reporting candidate_list :
  RawContest.raceTitle (ContestTransformer.raw self) = Some title ->
  RawContest.Reporting (ContestTransformer.raw self) = Some reporting ->
  RawContest.candidates (ContestTransformer.raw self) = Some candidate_list ->
  Forall
    (fun c => RawCandidate.Name c <> None /\ RawCandidate.Votes c <> None)
    candidate_list ->
  Exists
    (fun c =>
       exists value,
         RawCandidate.Votes c = Some value
         /\ ContestTransformer.clean_votes value = Raise ValueError)
    candidate_list ->
  ContestTransformer.transform_data self = Raise ValueError.
Proof.
  intros Htitle Hrep Hcands Hfields Hbad.
  unfold ContestTransformer.transform_data.
  destruct (correct_name_total _ _ Htitle) as (name & ->).
  rewrite Htitle, Hrep, Hcands. simpl.
  destruct (correct_incumbent_total self candidate_list) as (marked & Hm).
  { eapply Forall_impl; [exact Hfields|]. intros c [Hn _]. exact Hn. }
  rewrite Hm. simpl. rewrite (marked_parse_votes _ _ _ Hm).
  rewrite (for_each_raises ContestTransformer.parse_votes candidate_list
             ValueError); [reflexivity| |].
  - eapply Forall_impl; [exact Hfields|]. intros c [_ Hv]. simpl in Hv.
    unfold ContestTransformer.parse_votes.
    destruct (RawCandidate.Votes c) as [value|]; [|contradiction]. simpl.
    destruct (ContestTransformer.clean_votes value) as [n|e] eqn:Hn.
    + left. eexists. reflexivity.
    + right. apply clean_votes_raises in Hn. subst e. reflexivity.
  - eapply Exists_impl; [exact Hbad|]. intros c (value & Hv & Hn).
    unfold ContestTransformer.parse_votes. rewrite Hv. exact Hn.
Qed.

End ContestOutcome.

Lemma malformed_votes_raise_ValueError_witness :
  ContestTransformer.transform_data (H := Sample.collaborators)
    (ContestTransformer.mk Sample.treasurer Sample.corrections)
  = Raise ValueError.
Proof.
  apply (malformed_votes_raise_ValueError (H := Sample.collaborators)
           (ContestTransformer.mk Sample.treasurer Sample.corrections)
           "Treasurer" "50%"
           [Sample.candidate "Gus" "7"; Sample.candidate "Hal" "x"]);
    try reflexivity.
  - repeat constructor; discriminate.
  - right. left. exists "x". split; reflexivity.
Defined.

Lemma Forall2_left_with {A B} (P : A -> B -> Prop) (Q : B -> Prop) l k :
  Forall2 P l k -> Forall Q k -> Forall (fun x => exists y, P x y /\ Q y) l.
Proof.
  induction 1 as [|x y l k Hxy _ IH]; intros Hk; constructor.
  - apply Forall_cons in Hk as [Hy _]. exists y. auto.
  - apply Forall_cons in Hk as [_ Hk]. apply IH, Hk.
Qed.

Lemma Forall2_right_with {A B} (P : A -> B -> Prop) (Q : A -> Prop) l k :
  Forall2 P l k -> Forall Q l -> Forall (fun y => exists x, Q x /\ P x y) k.
Proof.
  induction 1 as [|x y l k Hxy _ IH]; intros Hl; constructor.
  - apply Forall_cons in Hl as [Hx _]. exists x. auto.
  - apply Forall_cons in Hl as [_ Hl]. apply IH, Hl.
Qed.

Lemma sum_bounds_each (l : list Z) :
  Forall (fun n => 0 <= n) l ->
  0 <= ContestTransformer.sum l
  /\ Forall (fun n => 0 <= n <= ContestTransformer.sum l) l.
Proof.
  induction 1 as [|n l Hn _ [IH0 IH]]; simpl; [split; [lia|constructor]|].
  split; [lia|]. constructor; [lia|].
  eapply Forall_impl; [exact IH|]. intros m Hm. cbv beta in Hm. lia.
Qed.

Section ContestSuccess.
Context `{Collaborators}.

(** X15: a well-formed contest is transformed: when the contest has its
    title, its Reporting and its candidates, every candidate has a Name and
    a Votes value that parses to a non-negative count, and the candidate
    schema accepts every record, the transformation returns a contest with
    the slug of the title, the Reporting value and as many candidates. *)
Theorem well_formed_contest_transforms self title reporting candidate_list :
  RawContest.raceTitle (ContestTransformer.raw self) = Some title ->
  RawContest.Reporting (ContestTransformer.raw self) = Some reporting ->
  RawContest.candidates (ContestTransformer.raw self) = Some candidate_list ->
  Forall
    (fun c =>
       RawCandidate.Name c <> None
       /\ exists n, ContestTransformer.parse_votes c = Ok n /\ 0 <= n)
    candidate_list ->
  (forall r, CandidateResult_schema r = true) ->
  exists data,
    ContestTransformer.transform_data self = Ok data
    /\ Contest.slug data = slugify title
    /\ Contest.precincts_reporting data = reporting
    /\ length (Contest.candidates data) = length candidate_list.
Proof.
  intros Htitle Hrep Hcands Hfields Hschema.
  destruct (correct_name_total _ _ Htitle) as (name & Hname).
  destruct (correct_incumbent_total self candidate_list) as (marked & Hm).
  { eapply Forall_impl; [exact Hfields|]. intros c [Hn _]. exact Hn. }
  pose proof (correct_incumbent_frame _ _ _ Hm) as Hframe.
  (* the counts parse *)
  destruct (for_each_total ContestTransformer.parse_votes candidate_list)
    as (parsed & Hparsed).
  { eapply Forall_impl; [exact Hfields|]. intros c (_ & n & Hn & _). eauto. }
  assert (Hnonneg : Forall (fun n => 0 <= n) parsed).
  { apply for_each_Ok in Hparsed.
    eapply Forall_impl;
      [exact (Forall2_right_with _ _ _ _ Hparsed Hfields)|].
    intros n (c & (_ & n' & Hn' & Hpos) & Hn). cbv beta in *. congruence. }
  destruct (sum_bounds_each parsed Hnonneg) as [_ Hbound].
  pose proof Hparsed as Hmarked.
  rewrite <- (marked_parse_votes _ _ _ Hm) in Hmarked.
  (* every candidate gets a share *)
  set (vote_total := ContestTransformer.sum parsed) in *.
  assert (Hcounts :
    Forall (fun c => RawCandidate.Name c <> None
                     /\ exists n, ContestTransformer.parse_votes c = Ok n
                                  /\ 0 <= n <= vote_total) marked).
  { pose proof Hmarked as Hpairs. apply for_each_Ok in Hpairs.
    pose proof (Forall2_left_with _ _ _ _ Hpairs Hbound) as Hleft.
    pose proof (Forall2_right_with _ _ _ _ Hframe Hfields) as Hright.
    rewrite Forall_forall in Hleft, Hright. apply Forall_forall.
    intros c Hc. destruct (Hleft c Hc) as (n & Hn & Hrange).
    destruct (Hright c Hc) as (c0 & (Hname0 & _) & Hsame & _).
    split; [congruence | eauto]. }
  destruct (for_each_total
              (ContestTransformer.set_votes_percent vote_total) marked)
    as (shared & Hshared).
  { eapply Forall_impl; [exact Hcounts|].
    intros c (_ & n & Hn & Hrange). cbv beta.
    unfold ContestTransformer.set_votes_percent.
    destruct (0 <? vote_total) eqn:Hpos; [|eexists; reflexivity].
    apply Z.ltb_lt in Hpos. rewrite Hn. simpl.
    destruct (true_div_error n vote_total Hrange Hpos) as (share & -> & _).
    eexists. reflexivity. }
  (* every candidate is dumped *)
  destruct (for_each_total CandidateResultTransformer.dump shared)
    as (records & Hrecords).
  { pose proof Hshared as Hpairs. apply for_each_Ok in Hpairs.
    eapply Forall_impl;
      [exact (Forall2_right_with _ _ _ _ Hpairs Hcounts)|].
    intros c' (c & (Hn & n & Hvotes & _) & Hc). cbv beta in *.
    apply set_votes_percent_Ok in Hc as (x & -> & _).
    unfold CandidateResultTransformer.dump, BaseTransformer.dump,
      CandidateResultTransformer.transform_data.
    unfold ContestTransformer.parse_votes in Hvotes.
    cbn [RawCandidate.Name RawCandidate.Votes RawCandidate.Party
         RawCandidate.incumbent RawCandidate.votes_percent
         RawCandidate.set_votes_percent].
    destruct (RawCandidate.Name c) as [candidate_name|]; [|contradiction].
    destruct (RawCandidate.Votes c) as [value|]; [|discriminate].
    simpl in Hvotes. simpl.
    change (CandidateResultTransformer.clean_votes value)
      with (ContestTransformer.clean_votes value).
    rewrite Hvotes. simpl. rewrite Hschema. eexists. reflexivity. }
  eexists. split; [|split; [|split]].
  - unfold ContestTransformer.transform_data.
    rewrite Hname, Htitle, Hrep, Hcands. simpl. rewrite Hm. simpl.
    rewrite Hmarked. simpl. fold vote_total. rewrite Hshared. simpl.
    rewrite Hrecords. reflexivity.
  - reflexivity.
  - reflexivity.
  - simpl. rewrite (for_each_length _ _ _ Hrecords).
    rewrite (for_each_length _ _ _ Hshared).
    symmetry. eapply Forall2_length, Hframe.
Qed.

End ContestSuccess.

Lemma well_formed_contest_transforms_witness :
  exists data,
    ContestTransformer.transform_data (H := Sample.lenient) Sample.clerk_obj
    = Ok data
    /\ Contest.slug data = "city-clerk"
    /\ Contest.precincts_reporting data = "100%"
    /\ length (Contest.candidates data) = 2%nat.
Proof.
  apply (well_formed_contest_transforms (H := Sample.lenient)
           Sample.clerk_obj "City Clerk" "100%"
           [Sample.candidate "Dan" "0"; Sample.candidate "Eve" "0"]);
    try reflexivity.
  constructor; [|constructor; [|constructor]];
    (split; [discriminate | exists 0; split; [reflexivity | lia]]).
Defined.

(** ** The range of a share *)

Lemma rne_range n d c :
  0 < d -> 0 <= n <= d * c -> 0 <= Float.rne n d <= c.
Proof.
  intros Hd Hn. pose proof (rne_error n d Hd) as Herr. nia.
Qed.

Lemma nearest_range n d :
  0 <= n <= d -> 0 < d ->
  exists x, Float.nearest n d = Some x /\ (0 <= x <= 1)%Q.
Proof.
  intros Hnd Hd. unfold Float.nearest.
  destruct (n =? 0) eqn:Hzero.
  { exists 0%Q. split; [reflexivity|]. split; discriminate. }
  apply Z.eqb_neq in Hzero.
  assert (Hpos : (0 <? n) = true) by (apply Z.ltb_lt; lia).
  rewrite Hpos. unfold Float.nearest_pos, Float.scale.
  pose proof (ulp_exponent_small n d ltac:(lia)) as Hp.
  set (p := Float.ulp_exponent n d) in *.
  assert (Hneg : (0 <=? p) = false) by (apply Z.leb_gt; lia).
  rewrite Hneg. cbn [andb]. eexists. split; [reflexivity|].
  set (P := 2 ^ (- p)).
  assert (HP : 0 < P) by (apply Z.pow_pos_nonneg; lia).
  pose proof (rne_range (n * P) d P Hd ltac:(nia)) as Hm.
  set (m := Float.rne (n * P) d) in *.
  setoid_rewrite Qred_correct. unfold Qle. simpl.
  rewrite Z2Pos.id by exact HP. lia.
Qed.

Lemma ten_thousandths_range votes vote_total share :
  0 <= votes <= vote_total -> 0 < vote_total ->
  Float.true_div votes vote_total = Ok share ->
  0 <= Float.ten_thousandths share <= 10000.
Proof.
  intros Hv Ht Hdiv.
  destruct (true_div_error votes vote_total Hv Ht) as (share' & Hdiv' & Hshare).
  rewrite Hdiv in Hdiv'. injection Hdiv' as <-.
  pose proof (fraction_in_unit votes vote_total Hv Ht) as [Hw0 Hw1].
  set (w := (votes # Z.to_pos vote_total)%Q) in *.
  pose proof (ten_thousandths_error share) as Hk.
  set (k := Float.ten_thousandths share) in *.
  apply Qabs_Qle_condition in Hshare, Hk.
  assert (Hlow : (inject_Z (-1) < inject_Z k)%Q).
  { change (inject_Z (-1)) with (-1 # 1)%Q. lra. }
  assert (Hhigh : (inject_Z k < inject_Z 10001)%Q).
  { change (inject_Z 10001) with (10001 # 1)%Q. lra. }
  rewrite <- Zlt_Qlt in Hlow, Hhigh. lia.
Qed.

Lemma true_div_self votes : 0 < votes -> Float.true_div votes votes = Ok 1%Q.
Proof.
  intros Hv. unfold Float.true_div, Float.nearest, Float.nearest_pos.
  assert (Hne : (votes =? 0) = false) by (apply Z.eqb_neq; lia).
  assert (Hpos : (0 <? votes) = true) by (apply Z.ltb_lt; lia).
  rewrite Hne, Hpos.
  assert (Hp : Float.ulp_exponent votes votes = -52).
  { unfold Float.ulp_exponent. rewrite Z.sub_diag.
    change (0 <=? 0) with true. cbv iota.
    assert (Hle : (votes * 2 ^ 0 <=? votes) = true) by (apply Z.leb_le; lia).
    rewrite Hle. reflexivity. }
  rewrite Hp.
  assert (Hm : Float.rne (votes * 2 ^ (- -52)) votes = 2 ^ 52).
  { unfold Float.rne. change (- -52) with 52.
    rewrite (Z.mul_comm votes), Z.div_mul, Z.mod_mul by lia.
    assert (Hlt : (2 * 0 <? votes) = true) by (apply Z.ltb_lt; lia).
    rewrite Hlt. reflexivity. }
  cbn [Z.leb Z.compare andb]. rewrite Hm. reflexivity.
Qed.

Lemma true_div_zero vote_total :
  0 < vote_total -> Float.true_div 0 vote_total = Ok 0%Q.
Proof.
  intros Ht. unfold Float.true_div.
  assert (Hne : (vote_total =? 0) = false) by (apply Z.eqb_neq; lia).
  assert (Hpos : (0 <? vote_total) = true) by (apply Z.ltb_lt; lia).
  rewrite Hne, Hpos. reflexivity.
Qed.

Section ShareRange.
Context `{Collaborators}.

(** X12: in a transformed contest whose vote counts are all non-negative
    and whose total is above 0, every share lies between 0.0 and 1.0 and is
    the double nearest to a whole number of ten-thousandths, between 0 and
    10000 of them. *)
Theorem shares_are_four_place_fractions self data :
  ContestTransformer.transform_data self = Ok data ->
  Forall (fun r => 0 <= CandidateResult.votes r) (Contest.candidates data) ->
  0 < ContestTransformer.sum
        (map CandidateResult.votes (Contest.candidates data)) ->
  Forall
    (fun r =>
       (0 <= CandidateResult.votes_percent r <= 1)%Q
       /\ exists k,
            0 <= k <= 10000
            /\ Float.nearest k 10000 = Some (CandidateResult.votes_percent r))
    (Contest.candidates data).
Proof.
  intros Ht Hnonneg Hpos.
  destruct (transform_data_candidates _ _ Ht) as (raw_candidates & _ & Hall).
  destruct (votes_bounded_by_total _ Hnonneg) as [_ Hle].
  set (vote_total :=
         ContestTransformer.sum
           (map CandidateResult.votes (Contest.candidates data))) in *.
  apply (Forall2_right _ (fun r => Spec.share_of vote_total
                              (CandidateResult.votes r)
                              (CandidateResult.votes_percent r))) in Hall;
    [|intros c r (_ & _ & _ & Hs); exact Hs].
  clearbody vote_total.
  rewrite Forall_forall in Hnonneg, Hle, Hall. apply Forall_forall.
  intros r Hr. destruct (Hall r Hr) as [Hshare _].
  destruct (Hshare Hpos) as (share & Hdiv & ->).
  specialize (Hnonneg r Hr). specialize (Hle r Hr). cbv beta in *.
  pose proof (ten_thousandths_range _ _ _ (conj Hnonneg Hle) Hpos Hdiv)
    as Hk.
  destruct (nearest_range _ 10000 Hk ltac:(lia)) as (x & Hx & Hrange).
  unfold Float.round4. rewrite Hx. split; [exact Hrange|].
  exists (Float.ten_thousandths share). split; [exact Hk | exact Hx].
Qed.

(** X13: in a transformed contest whose total is above 0, a candidate who
    holds all the votes has the share 1.0 exactly, and a candidate without
    votes has the share 0.0 exactly. *)
Theorem all_or_no_votes_share self data :
  ContestTransformer.transform_data self = Ok data ->
  0 < ContestTransformer.sum
        (map CandidateResult.votes (Contest.candidates data)) ->
  Forall
    (fun r =>
       (CandidateResult.votes r
        = ContestTransformer.sum
            (map CandidateResult.votes (Contest.candidates data)) ->
        CandidateResult.votes_percent r = 1%Q)
       /\ (CandidateResult.votes r = 0 ->
           CandidateResult.votes_percent r = 0%Q))
    (Contest.candidates data).
Proof.
  intros Ht Hpos.
  destruct (transform_data_candidates _ _ Ht) as (raw_candidates & _ & Hall).
  set (vote_total :=
         ContestTransformer.sum
           (map CandidateResult.votes (Contest.candidates data))) in *.
  clearbody vote_total.
  eapply Forall2_right; [|exact Hall].
  intros c r (_ & _ & _ & Hshare & _).
  destruct (Hshare Hpos) as (share & Hdiv & ->). split.
  - intros Hall_votes. rewrite Hall_votes, (true_div_self _ Hpos) in Hdiv.
    injection Hdiv as <-. vm_compute. reflexivity.
  - intros Hnone. rewrite Hnone, (true_div_zero _ Hpos) in Hdiv.
    injection Hdiv as <-. vm_compute. reflexivity.
Qed.

End ShareRange.

Lemma shares_are_four_place_fractions_witness :
  Forall
    (fun r =>
       (0 <= CandidateResult.votes_percent r <= 1)%Q
       /\ exists k,
            0 <= k <= 10000
            /\ Float.nearest k 10000 = Some (CandidateResult.votes_percent r))
    (Contest.candidates Sample.mayor_data).
Proof.
  apply (shares_are_four_place_fractions (H := Sample.collaborators)
           Sample.mayor_obj Sample.mayor_data).
  - vm_compute. reflexivity.
  - repeat constructor; discriminate.
  - reflexivity.
Defined.

Lemma all_or_no_votes_share_witness :
  Forall
    (fun r =>
       (CandidateResult.votes r = 1500 ->
        CandidateResult.votes_percent r = 1%Q)
       /\ (CandidateResult.votes r = 0 ->
           CandidateResult.votes_percent r = 0%Q))
    (Contest.candidates Sample.mayor_data).
Proof.
  apply (all_or_no_votes_share (H := Sample.collaborators)
           Sample.mayor_obj Sample.mayor_data).
  - vm_compute. reflexivity.
  - reflexivity.
Defined.

(** ** The include flag *)

Lemma lower_char_y c : Str.lower_char c = "y"%char -> c = "y"%char \/ c = "Y"%char.
Proof. by_cases_on_char c. Qed.

Lemma lower_char_e c : Str.lower_char c = "e"%char -> c = "e"%char \/ c = "E"%char.
Proof. by_cases_on_char c. Qed.

Lemma lower_char_s c : Str.lower_char c = "s"%char -> c = "s"%char \/ c = "S"%char.
Proof. by_cases_on_char c. Qed.

Lemma lower_is_yes flag :
  Str.lower flag = "yes" <-> In flag Spec.yes_spellings.
Proof.
  split.
  - destruct flag as [|a [|b [|c [|d rest]]]]; try discriminate.
    simpl. intros [= Ha Hb Hc].
    apply lower_char_y in Ha. apply lower_char_e in Hb.
    apply lower_char_s in Hc.
    destruct Ha as [-> | ->], Hb as [-> | ->], Hc as [-> | ->];
      simpl; tauto.
  - intros Hin. repeat (destruct Hin as [<-|Hin]; [reflexivity|]).
    destruct Hin.
Qed.

(** X16: with a correction row for its title, a contest is kept exactly
    when the row's include flag is yes in some mix of upper and lower case,
    one of eight spellings; white space around the word, or any other
    value, drops the contest. *)
Theorem include_accepts_spellings_of_yes self row flag :
  ContestTransformer._get_correction self = Some row ->
  Correction.include row = Some flag ->
  (ContestTransformer.include self = Ok true <-> In flag Spec.yes_spellings)
  /\ (ContestTransformer.include self = Ok false <->
      ~ In flag Spec.yes_spellings).
Proof.
  intros Hrow Hflag. unfold ContestTransformer.include.
  rewrite Hrow, Hflag. rewrite <- lower_is_yes.
  destruct (String.eqb (Str.lower flag) "yes") eqn:Heq.
  - apply String.eqb_eq in Heq.
    split; split; intros Hx;
      first [reflexivity | exact Heq | discriminate | contradiction].
  - apply String.eqb_neq in Heq.
    split; split; intros Hx;
      first [reflexivity | exact Heq | discriminate | contradiction].
Qed.

Lemma include_accepts_spellings_of_yes_witness :
  ContestTransformer.include Sample.mayor_obj = Ok true
  /\ ContestTransformer.include
       (ContestTransformer.mk Sample.dog_catcher Sample.corrections)
     = Ok false.
Proof.
  split.
  - apply (proj1 (include_accepts_spellings_of_yes Sample.mayor_obj
                    (Correction.mk "Mayor" (Some "Yes")
                       (Some "Mayor of Springfield") (Some EmptyString)
                       (Some "Springfield") (Some "Alice"))
                    "Yes" ltac:(vm_compute; reflexivity) eq_refl)).
    simpl. tauto.
  - apply (proj2 (include_accepts_spellings_of_yes
                    (ContestTransformer.mk Sample.dog_catcher
                       Sample.corrections)
                    (Correction.mk "Dog Catcher" (Some "no")
                       (Some EmptyString) (Some EmptyString)
                       (Some EmptyString) (Some EmptyString))
                    "no" ltac:(vm_compute; reflexivity) eq_refl)).
    simpl. intros Hin. repeat (destruct Hin as [Hin|Hin]; [discriminate|]).
    destruct Hin.
Defined.

(** ** The sign of a count *)

Lemma int_digits_nonneg s :
  forall acc after n,
    0 <= acc -> Str.int_digits acc after s = Some n -> 0 <= n.
Proof.
  induction s as [|c s IH]; simpl; intros acc after n Hacc.
  - destruct after; [|discriminate]. intros [= <-]. exact Hacc.
  - destruct (Str.digit_value c) as [d|] eqn:Hd.
    + apply IH. apply digit_value_range in Hd. lia.
    + destruct (Ascii.eqb c "_" && after); [|discriminate]. apply IH, Hacc.
Qed.

Section StringOrigins.
Variable sp : ascii -> bool.
Variable p : ascii -> bool.

(** A character left by stripping or by removing a character was there
    before. *)
Lemma lstrip_with_came_from s :
  Spec.some p (Str.lstrip_with sp s) = true -> Spec.some p s = true.
Proof.
  induction s as [|c s IH]; simpl; [discriminate|].
  destruct (sp c); [|exact (fun Hs => Hs)].
  intros Hs. rewrite (IH Hs). apply orb_true_r.
Qed.

Lemma rstrip_with_came_from s :
  Spec.some p (Str.rstrip_with sp s) = true -> Spec.some p s = true.
Proof.
  induction s as [|c s IH]; simpl; [discriminate|].
  destruct (Str.rstrip_with sp s) as [|c' kept].
  - destruct (sp c); simpl; [discriminate|].
    rewrite orb_false_r. intros ->. reflexivity.
  - change (Spec.some p (String c (String c' kept)))
      with (p c || Spec.some p (String c' kept)).
    intros [Hc|Hs]%orb_prop; [rewrite Hc; reflexivity|].
    rewrite (IH Hs). apply orb_true_r.
Qed.

Lemma remove_char_came_from old s :
  Spec.some p (Str.remove_char old s) = true -> Spec.some p s = true.
Proof.
  induction s as [|c s IH]; simpl; [discriminate|].
  destruct (Ascii.eqb c old); simpl.
  - intros Hs. rewrite (IH Hs). apply orb_true_r.
  - intros [Hc|Hs]%orb_prop; [rewrite Hc; reflexivity|].
    rewrite (IH Hs). apply orb_true_r.
Qed.

End StringOrigins.

Lemma int_negative_has_minus s n :
  Str.int s = Ok n -> n < 0 ->
  Spec.some (fun c => Ascii.eqb c "-") s = true.
Proof.
  unfold Str.int. intros Hint Hneg.
  apply (lstrip_with_came_from Str.int_isspace),
    (rstrip_with_came_from Str.int_isspace).
  set (body := Str.rstrip_with _ _) in *. clearbody body.
  destruct body as [|c digits].
  { simpl in Hint. discriminate. }
  destruct (Ascii.eqb c "-") eqn:Hminus; [simpl; rewrite Hminus; reflexivity|].
  exfalso.
  assert (Hparsed :
    forall parsed,
      match String c digits with
      | String "-" t => option_map Z.opp (Str.int_digits 0 false t)
      | String "+" t => Str.int_digits 0 false t
      | _ => Str.int_digits 0 false (String c digits)
      end = Some parsed -> 0 <= parsed).
  { intros parsed.
    destruct c as [[] [] [] [] [] [] [] []]; try discriminate Hminus;
      apply int_digits_nonneg; lia. }
  destruct (match String c digits with
            | String "-" t => option_map Z.opp (Str.int_digits 0 false t)
            | String "+" t => Str.int_digits 0 false t
            | _ => Str.int_digits 0 false (String c digits)
            end) as [parsed|] eqn:Hp; [|discriminate].
  injection Hint as <-. specialize (Hparsed parsed eq_refl). lia.
Qed.

(** X17: a vote count parses to a negative number only when the string
    holds a minus sign: without one, a count that parses is 0 or more. *)
Theorem count_without_minus_is_nonnegative value n :
  ContestTransformer.clean_votes value = Ok n ->
  Spec.some (fun c => Ascii.eqb c "-") value = false ->
  0 <= n.
Proof.
  intros Hparse Hnominus.
  destruct (Z.lt_ge_cases n 0) as [Hneg|Hpos]; [|exact Hpos].
  unfold ContestTransformer.clean_votes, Str.strip in Hparse.
  apply (int_negative_has_minus _ _ Hparse) in Hneg.
  apply remove_char_came_from, rstrip_with_came_from,
    lstrip_with_came_from in Hneg.
  congruence.
Qed.

Lemma count_without_minus_is_nonnegative_witness :
  ContestTransformer.clean_votes " +1,000 " = Ok 1000 /\ 0 <= 1000.
Proof.
  split; [reflexivity|].
  apply (count_without_minus_is_nonnegative " +1,000 " 1000); reflexivity.
Defined.

(** ** Names within the incumbent value *)

Lemma prefix_app s t : String.prefix s (s ++ t) = true.
Proof.
  induction s as [|c s IH]; simpl; [destruct t; reflexivity|].
  destruct (ascii_dec c c); [exact IH | contradiction].
Qed.

Lemma prefix_split s hay :
  String.prefix s hay = true -> exists t, hay = s ++ t.
Proof.
  revert hay. induction s as [|c s IH]; intros hay.
  - exists hay. reflexivity.
  - destruct hay as [|c' hay]; simpl; [discriminate|].
    destruct (ascii_dec c c') as [<-|]; [|discriminate].
    intros (t & ->)%IH. exists t. reflexivity.
Qed.

Lemma contains_unfold needle hay :
  Str.contains needle hay
  = String.prefix needle hay
    || match hay with
       | EmptyString => false
       | String _ rest => Str.contains needle rest
       end.
Proof. destruct hay; reflexivity. Qed.

(** [needle in hay] holds exactly when [hay] has [needle] somewhere
    inside. *)
Lemma contains_iff needle hay :
  Str.contains needle hay = true <->
  exists before after, hay = before ++ needle ++ after.
Proof.
  split.
  - induction hay as [|c hay IH]; rewrite contains_unfold.
    + rewrite orb_false_r. intros (t & Ht)%prefix_split.
      exists EmptyString, t. exact Ht.
    + intros [Hp|Hrest]%orb_prop.
      * apply prefix_split in Hp as (t & Ht).
        exists EmptyString, t. exact Ht.
      * destruct (IH Hrest) as (before & after & ->).
        exists (String c before), after. reflexivity.
  - intros (before & after & ->).
    induction before as [|c before IH].
    + change (EmptyString ++ needle ++ after) with (needle ++ after).
      rewrite contains_unfold, prefix_app. reflexivity.
    + change (String c before ++ needle ++ after)
        with (String c (before ++ needle ++ after)).
      rewrite contains_unfold, IH. apply orb_true_r.
Qed.

(** X18: incumbents are found by substring: with a correction row giving
    a non-empty incumbent value, a candidate is marked true exactly when
    its name occurs somewhere inside that value, be it a whole name, a part
    of one, or the empty name. *)
Theorem incumbent_is_substring_match self row incumbents candidate_list marked :
  ContestTransformer._get_correction self = Some row ->
  Correction.incumbent row = Some incumbents ->
  incumbents <> EmptyString ->
  ContestTransformer.correct_incumbent self candidate_list = Ok marked ->
  Forall2
    (fun c c' =>
       exists name,
         RawCandidate.Name c = Some name
         /\ (RawCandidate.incumbent c' = Some true <->
             exists before after, incumbents = before ++ name ++ after)
         /\ (RawCandidate.incumbent c' = Some false <->
             ~ exists before after, incumbents = before ++ name ++ after))
    candidate_list marked.
Proof.
  intros Hrow Hinc Hne Hmark.
  assert (Hor : ContestTransformer.or_None (Correction.incumbent row)
                = Some incumbents) by (apply or_None_Some; auto).
  eapply Forall2_impl; [exact (correct_incumbent_with _ _ _ _ _ Hrow Hor Hmark)|].
  intros c c' (name & Hname & ->). exists name. split; [exact Hname|].
  cbn [RawCandidate.incumbent RawCandidate.set_incumbent].
  rewrite <- contains_iff.
  destruct (Str.contains name incumbents); split; split; intros Hx;
    first [reflexivity | discriminate | congruence | contradiction
          | (exfalso; apply Hx; reflexivity)].
Qed.

Lemma incumbent_is_substring_match_witness :
  Forall2
    (fun c c' =>
       exists name,
         RawCandidate.Name c = Some name
         /\ (RawCandidate.incumbent c' = Some true <->
             exists before after, "Alice" = before ++ name ++ after)
         /\ (RawCandidate.incumbent c' = Some false <->
             ~ exists before after, "Alice" = before ++ name ++ after))
    [Sample.candidate "lic" "1"; Sample.bob]
    [RawCandidate.set_incumbent true (Sample.candidate "lic" "1");
     RawCandidate.set_incumbent false Sample.bob].
Proof.
  apply (incumbent_is_substring_match Sample.mayor_obj
           (Correction.mk "Mayor" (Some "Yes")
              (Some "Mayor of Springfield") (Some EmptyString)
              (Some "Springfield") (Some "Alice"))
           "Alice").
  - vm_compute. reflexivity.
  - reflexivity.
  - discriminate.
  - vm_compute. reflexivity.
Defined.

(** ** What the corrections cannot change *)

Lemma Forall2_map_eq {A B C} (f : A -> C) (g : B -> C) l k :
  Forall2 (fun x y => f x = g y) l k -> map f l = map g k.
Proof.
  induction 1 as [|x y l k Hxy _ IH]; simpl; [reflexivity|].
  rewrite Hxy, IH. reflexivity.
Qed.

Section CorrectionsFrame.
Context `{Collaborators}.

(** X19: the corrections reach the name, the description, the geography
    and the incumbent flags only: two transformations of the same raw
    contest under different correction tables agree on the slug, on the
    reporting progress and, candidate by candidate, on name, party, votes
    and share. *)
Theorem corrections_leave_votes_alone raw corrections1 corrections2 data1 data2 :
  ContestTransformer.transform_data (ContestTransformer.mk raw corrections1)
  = Ok data1 ->
  ContestTransformer.transform_data (ContestTransformer.mk raw corrections2)
  = Ok data2 ->
  Contest.slug data1 = Contest.slug data2
  /\ Contest.precincts_reporting data1 = Contest.precincts_reporting data2
  /\ map (fun r => (CandidateResult.name r, CandidateResult.party r,
                    CandidateResult.votes r, CandidateResult.votes_percent r))
       (Contest.candidates data1)
     = map (fun r => (CandidateResult.name r, CandidateResult.party r,
                      CandidateResult.votes r, CandidateResult.votes_percent r))
         (Contest.candidates data2).
Proof.
  intros H1 H2.
  destruct (transform_data_stages _ _ H1)
    as (title1 & reporting1 & _ & _ & _ & _
        & Ht1 & _ & Hs1 & _ & _ & Hr1 & Hp1 & _).
  destruct (transform_data_stages _ _ H2)
    as (title2 & reporting2 & _ & _ & _ & _
        & Ht2 & _ & Hs2 & _ & _ & Hr2 & Hp2 & _).
  simpl in *. split; [congruence|]. split; [congruence|].
  destruct (transform_data_candidates _ _ H1) as (cands1 & Hc1 & Hall1).
  destruct (transform_data_candidates _ _ H2) as (cands2 & Hc2 & Hall2).
  simpl in Hc1, Hc2. rewrite Hc1 in Hc2. injection Hc2 as <-.
  (* the two transformations parsed the same counts *)
  assert (Hvotes : map CandidateResult.votes (Contest.candidates data1)
                   = map CandidateResult.votes (Contest.candidates data2)).
  { apply (Forall2_functional ContestTransformer.parse_votes cands1);
      apply Forall2_fmap_r; [eapply Forall2_impl; [exact Hall1|]
                            |eapply Forall2_impl; [exact Hall2|]];
      intros c r (_ & _ & Hv & _); exact Hv. }
  rewrite <- Hvotes in Hall2.
  set (vote_total :=
         ContestTransformer.sum
           (map CandidateResult.votes (Contest.candidates data1))) in *.
  clearbody vote_total.
  apply Forall2_map_eq.
  apply Forall2_flip in Hall1.
  eapply Forall2_impl; [exact (Forall2_compose _ _ _ _ _ Hall1 Hall2)|].
  intros r1 r2 (c & (Hn1 & Hpa1 & Hv1 & Hpos1 & Hzero1)
                  & Hn2 & Hpa2 & Hv2 & Hpos2 & Hzero2).
  cbv beta.
  assert (Hname : CandidateResult.name r1 = CandidateResult.name r2)
    by congruence.
  assert (Hparty : CandidateResult.party r1 = CandidateResult.party r2)
    by congruence.
  assert (Hcount : CandidateResult.votes r1 = CandidateResult.votes r2)
    by congruence.
  assert (Hshare : CandidateResult.votes_percent r1
                   = CandidateResult.votes_percent r2).
  { destruct (Z.lt_ge_cases 0 vote_total) as [Hpos|Hle].
    - destruct (Hpos1 Hpos) as (share1 & Hd1 & ->).
      destruct (Hpos2 Hpos) as (share2 & Hd2 & ->).
      rewrite Hcount, Hd2 in Hd1. injection Hd1 as <-. reflexivity.
    - rewrite (Hzero1 Hle), (Hzero2 Hle). reflexivity. }
  rewrite Hname, Hparty, Hcount, Hshare. reflexivity.
Qed.

End CorrectionsFrame.

Lemma corrections_leave_votes_alone_witness :
  Contest.slug Sample.mayor_data = "mayor"
  /\ map CandidateResult.votes (Contest.candidates Sample.mayor_data)
     = [1000; 500; 0].
Proof.
  destruct (corrections_leave_votes_alone (H := Sample.collaborators)
              Sample.mayor Sample.corrections ∅ Sample.mayor_data
              (Contest.mk "Mayor" "mayor" None None "100%"
                 [ CandidateResult.mk "Alice" (Some "Dem") 1000
                     (6005099743135819 # 9007199254740992)%Q None;
                   CandidateResult.mk "Bob" None 500
                     (6004199023210345 # 18014398509481984)%Q None;
                   CandidateResult.mk "Carol" None 0 0%Q (Some true) ])
              ltac:(vm_compute; reflexivity) ltac:(vm_compute; reflexivity))
    as (Hslug & _ & Hcands).
  split; [exact Hslug|].
  apply (f_equal (map (fun t => snd (fst t)))) in Hcands.
  rewrite !map_map in Hcands. exact Hcands.
Defined.
